(** * ShoeKart: cart, checkout, catalog and order history

    A shallow embedding of the storefront's client handlers
    ([src/pages/Cart.tsx], [src/pages/Products.tsx], [src/pages/Orders.tsx],
    [src/pages/Admin.tsx]) together with the relational schema and the
    row-level-security policies of the SQL migration that sets up the store.

    Conventions.
    - Currency columns are [DECIMAL(10,2)]; an amount is held as an integer
      number of cents, so the source literal [100] (dollars) reads [10000].
    - [INTEGER] columns and JavaScript numbers that hold counts are [Z].
    - A handler is a computation over a [World]: the remote store, the number
      of requests sent so far, and the chronological trace of what the handler
      did (requests, console output, notifications, navigation, local state).
    - The network is an oracle [fails]: the n-th request is lost iff
      [fails n = true]; a lost request changes nothing in the store.
    - Strings are sequences of one-byte characters.  Where a statement
      depends on how JavaScript treats characters (lower-casing, white
      space), it is stated for ASCII text ([ascii_only]). *)

From Stdlib Require Import ZArith List String Ascii Bool Lia.
From Stdlib Require Import Sorted Permutation.
Import ListNotations.

Local Open Scope string_scope.
Local Open Scope Z_scope.
Local Open Scope list_scope.

(* ------------------------------------------------------------------ *)
(** ** Schema (the SQL migration) *)

Definition uuid := string.

(** [CREATE TYPE public.app_role AS ENUM ('admin', 'user')] *)
Inductive app_role := role_admin | role_user.

Definition app_role_eqb (a b : app_role) : bool :=
  match a, b with
  | role_admin, role_admin | role_user, role_user => true
  | _, _ => false
  end.

(** [public.products]; the fields of the [Product] interface plus [created_at]. *)
Record Product := mkProduct {
  p_id : uuid;
  p_name : string;
  p_description : string;
  p_price : Z;
  p_image_url : string;
  p_brand : string;
  p_size_available : list string;
  p_stock_quantity : Z;
  p_is_active : bool;
  p_created_at : Z
}.

(** [public.cart] *)
Record CartRow := mkCartRow {
  c_id : uuid;
  c_user_id : uuid;
  c_product_id : uuid;
  c_quantity : Z;
  c_selected_size : string
}.

(** [public.orders] *)
Record OrderRow := mkOrderRow {
  o_id : uuid;
  o_user_id : uuid;
  o_total_amount : Z;
  o_status : string;
  o_created_at : Z
}.

(** [public.order_items] *)
Record OrderItemRow := mkOrderItemRow {
  oi_id : uuid;
  oi_order_id : uuid;
  oi_product_id : uuid;
  oi_quantity : Z;
  oi_price : Z;
  oi_selected_size : string
}.

Record Store := mkStore {
  products : list Product;
  cart : list CartRow;
  orders : list OrderRow;
  order_items : list OrderItemRow;
  user_roles : list (uuid * app_role)
}.

Definition set_products (ps : list Product) (s : Store) : Store :=
  mkStore ps (cart s) (orders s) (order_items s) (user_roles s).
Definition set_cart (cs : list CartRow) (s : Store) : Store :=
  mkStore (products s) cs (orders s) (order_items s) (user_roles s).
Definition set_orders (os : list OrderRow) (s : Store) : Store :=
  mkStore (products s) (cart s) os (order_items s) (user_roles s).
Definition set_order_items (ois : list OrderItemRow) (s : Store) : Store :=
  mkStore (products s) (cart s) (orders s) ois (user_roles s).

(** [public.has_role(_user_id, _role)] *)
Definition has_role (s : Store) (_user_id : uuid) (_role : app_role) : bool :=
  existsb (fun r => (fst r =? _user_id)%string && app_role_eqb (snd r) _role)
          (user_roles s).

(** The session: [auth.uid()] is [None] for an anonymous caller. *)
Definition uid_is (caller : option uuid) (u : uuid) : bool :=
  match caller with
  | Some c => (c =? u)%string
  | None => false
  end.

Definition is_admin (s : Store) (caller : option uuid) : bool :=
  match caller with
  | Some c => has_role s c role_admin
  | None => false
  end.

(* ------------------------------------------------------------------ *)
(** ** Store operations under the row-level-security policies *)

Inductive Error :=
| RemoteFailure
| NumericValueOutOfRange
| RlsViolation
| UniqueViolation
| ForeignKeyViolation.

(** The [{ data, error }] pair of a store reply. *)
Inductive Response (A : Type) :=
| Data (a : A)
| Err (e : Error).
Arguments Data {A} a.
Arguments Err {A} e.

Definition mem (x : uuid) (l : list uuid) : bool :=
  existsb (fun y => (y =? x)%string) l.

Fixpoint distinct (l : list uuid) : bool :=
  match l with
  | [] => true
  | x :: l' => negb (mem x l') && distinct l'
  end.

(** Products policies: "Anyone can view active products" (SELECT) and
    "Admins can manage products" (ALL). *)
Definition products_visible (s : Store) (caller : option uuid) (p : Product) : bool :=
  p_is_active p || is_admin s caller.

Definition products_select (caller : option uuid) (s : Store) : list Product :=
  filter (products_visible s caller) (products s).

(** [UPDATE products SET ... WHERE id = pid].  Rows the caller may not
    update are skipped without an error.  A row is a record of the columns
    above: [updated_at], which a trigger sets on every update, is not among
    them, and the place of a row in the list carries no meaning of its own
    (the store may return rows in any order that the query's [ORDER BY]
    leaves open), so a statement about the rows after an update is up to
    their order. *)
Definition products_update (caller : option uuid) (pid : uuid)
    (patch : Product -> Product) (s : Store) : Response (unit * Store) :=
  if is_admin s caller
  then Data (tt, set_products
                   (map (fun p => if (p_id p =? pid)%string then patch p else p)
                        (products s)) s)
  else Data (tt, s).

Definition with_stock_quantity (v : Z) (p : Product) : Product :=
  mkProduct (p_id p) (p_name p) (p_description p) (p_price p) (p_image_url p)
            (p_brand p) (p_size_available p) v (p_is_active p) (p_created_at p).

Definition with_is_active (b : bool) (p : Product) : Product :=
  mkProduct (p_id p) (p_name p) (p_description p) (p_price p) (p_image_url p)
            (p_brand p) (p_size_available p) (p_stock_quantity p) b (p_created_at p).

Definition with_price (v : Z) (p : Product) : Product :=
  mkProduct (p_id p) (p_name p) (p_description p) v (p_image_url p)
            (p_brand p) (p_size_available p) (p_stock_quantity p) (p_is_active p)
            (p_created_at p).

(** A value a [DECIMAL(10,2)] column can hold: fewer than nine digits before
    the point, so less than 10^10 cents either way. *)
Definition fits_decimal_10_2 (cents : Z) : bool :=
  (-10000000000 <? cents) && (cents <? 10000000000).

(** Orders policies: "Users can create own orders" (INSERT WITH CHECK
    [auth.uid() = user_id]); the primary key is unique.  The row is formed
    first: a [total_amount] that does not fit [DECIMAL(10,2)] is refused. *)
Definition orders_insert (caller : option uuid) (new_id : uuid) (ts : Z)
    (user_id : uuid) (total_amount : Z) (status : string) (s : Store)
    : Response (OrderRow * Store) :=
  if negb (fits_decimal_10_2 total_amount) then Err NumericValueOutOfRange
  else if negb (uid_is caller user_id) then Err RlsViolation
  else if mem new_id (map o_id (orders s)) then Err UniqueViolation
  else let row := mkOrderRow new_id user_id total_amount status ts in
       Data (row, set_orders (orders s ++ [row]) s).

(** The object literal built for each cart line in [handlePlaceOrder]. *)
Record NewOrderItem := mkNewOrderItem {
  n_order_id : uuid;
  n_product_id : uuid;
  n_quantity : Z;
  n_price : Z;
  n_selected_size : string
}.

Definition owns_order (s : Store) (caller : option uuid) (order_id : uuid) : bool :=
  existsb (fun o => (o_id o =? order_id)%string && uid_is caller (o_user_id o))
          (orders s).

Fixpoint stamp (gen : nat -> uuid) (i : nat) (rows : list NewOrderItem)
    : list OrderItemRow :=
  match rows with
  | [] => []
  | r :: rows' =>
      mkOrderItemRow (gen i) (n_order_id r) (n_product_id r) (n_quantity r)
                     (n_price r) (n_selected_size r)
      :: stamp gen (S i) rows'
  end.

(** Order-items policy: "Users can create order items for own orders";
    [product_id] references [products(id)]; the generated keys are new; one
    statement, all rows or none.  The rows are formed first: a [price] that
    does not fit [DECIMAL(10,2)] is refused. *)
Definition order_items_insert (caller : option uuid) (gen : nat -> uuid)
    (rows : list NewOrderItem) (s : Store) : Response (unit * Store) :=
  let new_rows := stamp gen 0 rows in
  if negb (forallb (fun r => fits_decimal_10_2 (n_price r)) rows)
  then Err NumericValueOutOfRange
  else if negb (forallb (fun r => owns_order s caller (n_order_id r)) rows)
  then Err RlsViolation
  else if negb (forallb (fun r => mem (n_product_id r) (map p_id (products s))) rows)
  then Err ForeignKeyViolation
  else if negb (distinct (map oi_id new_rows)
                && forallb (fun r => negb (mem (oi_id r) (map oi_id (order_items s))))
                           new_rows)
  then Err UniqueViolation
  else Data (tt, set_order_items (order_items s ++ new_rows) s).

(** Cart policy: "Users can manage own cart" (ALL USING [auth.uid() = user_id]). *)
Definition cart_select (caller : option uuid) (pred : CartRow -> bool) (s : Store)
    : list CartRow :=
  filter (fun c => uid_is caller (c_user_id c) && pred c) (cart s).

Definition cart_delete (caller : option uuid) (pred : CartRow -> bool) (s : Store)
    : Response (unit * Store) :=
  Data (tt, set_cart
              (filter (fun c => negb (uid_is caller (c_user_id c) && pred c))
                      (cart s)) s).

Definition with_quantity (q : Z) (c : CartRow) : CartRow :=
  mkCartRow (c_id c) (c_user_id c) (c_product_id c) q (c_selected_size c).

Definition cart_update (caller : option uuid) (pred : CartRow -> bool)
    (patch : CartRow -> CartRow) (s : Store) : Response (unit * Store) :=
  Data (tt, set_cart
              (map (fun c => if uid_is caller (c_user_id c) && pred c
                             then patch c else c)
                   (cart s)) s).

Definition same_line (user_id product_id : uuid) (selected_size : string)
    (c : CartRow) : bool :=
  (c_user_id c =? user_id)%string && (c_product_id c =? product_id)%string
  && (c_selected_size c =? selected_size)%string.

(** [UNIQUE(user_id, product_id, selected_size)], the primary key and the
    reference to [products(id)] guard an insertion. *)
Definition cart_insert (caller : option uuid) (new_id : uuid)
    (user_id product_id : uuid) (selected_size : string) (quantity : Z)
    (s : Store) : Response (unit * Store) :=
  if negb (uid_is caller user_id) then Err RlsViolation
  else if negb (mem product_id (map p_id (products s))) then Err ForeignKeyViolation
  else if existsb (same_line user_id product_id selected_size) (cart s)
          || mem new_id (map c_id (cart s))
  then Err UniqueViolation
  else Data (tt, set_cart
                   (cart s ++ [mkCartRow new_id user_id product_id quantity
                                         selected_size]) s).

(* ------------------------------------------------------------------ *)
(** ** Handlers as computations over a world *)

(** A request sent to the store, as it appears on the wire. *)
Inductive Req :=
| InsertOrder (user_id : uuid) (total_amount : Z) (status : string)
| InsertOrderItems (rows : list NewOrderItem)
| UpdateProductStock (product_id : uuid) (stock_quantity : Z)
| UpdateProductActive (product_id : uuid) (is_active : bool)
| SelectProducts
| DeleteCartOf (user_id : uuid)
| UpdateCartQuantity (cart_item_id : uuid) (quantity : Z)
| SelectCartLine (user_id product_id : uuid) (selected_size : string)
| InsertCartLine (user_id product_id : uuid) (selected_size : string) (quantity : Z).

Inductive Event :=
| Request (r : Req)
| ConsoleError (msg : string) (e : Error)
| ToastError (msg : string)
| ToastSuccess (msg : string)
| Navigate (path : string)
| SetPlacing (b : bool).

Record World := mkWorld {
  db : Store;
  tick : nat;
  trace : list Event
}.

(** A handler started on store [s], before anything has happened. *)
Definition start (s : Store) : World := mkWorld s 0 [].

(** What the handlers cannot control: lost requests, generated keys, the clock. *)
Record Env := mkEnv {
  fails : nat -> bool;
  gen_random_uuid : nat -> nat -> uuid;
  now : nat -> Z
}.

Inductive Result (A : Type) :=
| Ok (a : A)
| Throw (e : Error).
Arguments Ok {A} a.
Arguments Throw {A} e.

Definition M (A : Type) : Type := World -> Result A * World.

Definition ret {A} (a : A) : M A := fun w => (Ok a, w).

Definition bind {A B} (m : M A) (k : A -> M B) : M B :=
  fun w =>
    match m w with
    | (Ok a, w') => k a w'
    | (Throw e, w') => (Throw e, w')
    end.

Definition throw {A} (e : Error) : M A := fun w => (Throw e, w).

Declare Scope handler_scope.
Delimit Scope handler_scope with handler.
Notation "x <- m ;; k" := (bind m (fun x => k))
  (at level 100, m at next level, right associativity) : handler_scope.
Notation "m ;; k" := (bind m (fun _ => k))
  (at level 100, right associativity) : handler_scope.
Local Open Scope handler_scope.

Definition emit (ev : Event) : M unit :=
  fun w => (Ok tt, mkWorld (db w) (tick w) (trace w ++ [ev])).

(** [try { body } catch (error) { handler } finally { final }] *)
Definition try_catch_finally (body : M unit) (handler : Error -> M unit)
    (final : M unit) : M unit :=
  fun w =>
    match body w with
    | (Ok _, w1) => final w1
    | (Throw e, w1) =>
        match handler e w1 with
        | (Ok _, w2) => final w2
        | (Throw e', w2) =>
            match final w2 with
            | (Ok _, w3) => (Throw e', w3)
            | r => r
            end
        end
    end.

Definition try_catch (body : M unit) (handler : Error -> M unit) : M unit :=
  try_catch_finally body handler (ret tt).

(** [for (const x of l) { body }] *)
Fixpoint for_of {A} (l : list A) (body : A -> M unit) : M unit :=
  match l with
  | [] => ret tt
  | x :: l' => body x ;; for_of l' body
  end.

(** The reply to request number [n]: lost, or what the store operation [op]
    answers. *)
Definition answer {A} (env : Env) (n : nat)
    (op : nat -> Store -> Response (A * Store)) (s : Store) : Response (A * Store) :=
  if fails env n then Err RemoteFailure else op n s.

(** [await supabase.from(...)...]: the request is recorded and numbered, and
    the store changes only when the reply carries no error. *)
Definition remote {A} (env : Env) (r : Req)
    (op : nat -> Store -> Response (A * Store)) : M (Response A) :=
  fun w =>
    let n := tick w in
    let sent := trace w ++ [Request r] in
    match answer env n op (db w) with
    | Data (a, s') => (Ok (Data a), mkWorld s' (S n) sent)
    | Err e => (Ok (Err e), mkWorld (db w) (S n) sent)
    end.

(** [if (error) throw error] *)
Definition throw_if_error {A} (r : Response A) : M A :=
  match r with
  | Data a => ret a
  | Err e => throw e
  end.

(* ------------------------------------------------------------------ *)
(** ** The cart store ([useCart]) *)

(** The product columns embedded in a cart item, as [Cart.tsx] reads them. *)
Record CartProduct := mkCartProduct {
  cp_name : string;
  cp_image_url : string;
  cp_price : Z;
  cp_stock_quantity : Z
}.

(** An element of [cartItems]. *)
Record CartItem := mkCartItem {
  ci_id : uuid;
  ci_product_id : uuid;
  ci_quantity : Z;
  ci_selected_size : string;
  ci_product : CartProduct
}.

(** Modelled from the spec: the hook's [addToCart] is not part of the sources.
    "[add(owner, item, variant)] creates a line with quantity 1 or increments an
    existing matching line"; operations are scoped to the authenticated owner
    and a failure is caught and reported as a notification. *)
Definition addToCart (env : Env) (user : option uuid) (productId : uuid)
    (selectedSize : string) : M unit :=
  match user with
  | None => ret tt
  | Some u =>
      try_catch
        (found <- remote env (SelectCartLine u productId selectedSize)
                    (fun _ s => Data (cart_select (Some u)
                                        (same_line u productId selectedSize) s, s)) ;;
         existing <- throw_if_error found ;;
         match existing with
         | line :: _ =>
             r <- remote env (UpdateCartQuantity (c_id line) (c_quantity line + 1))
                    (fun _ => cart_update (Some u)
                                (fun c => (c_id c =? c_id line)%string)
                                (with_quantity (c_quantity line + 1))) ;;
             throw_if_error r
         | [] =>
             r <- remote env (InsertCartLine u productId selectedSize 1)
                    (fun n => cart_insert (Some u) (gen_random_uuid env n 0)
                                u productId selectedSize 1) ;;
             throw_if_error r
         end)
        (fun error =>
           emit (ConsoleError "Error adding to cart:" error) ;;
           emit (ToastError "Failed to add item to cart"))
  end.

(** Modelled from the spec: the hook's [updateQuantity] is not part of the
    sources.  It writes the new quantity of one line of the owner's cart. *)
Definition updateQuantity (env : Env) (user : option uuid) (cartItemId : uuid)
    (quantity : Z) : M unit :=
  try_catch
    (r <- remote env (UpdateCartQuantity cartItemId quantity)
            (fun _ => cart_update user (fun c => (c_id c =? cartItemId)%string)
                        (with_quantity quantity)) ;;
     throw_if_error r)
    (fun error =>
       emit (ConsoleError "Error updating quantity:" error) ;;
       emit (ToastError "Failed to update quantity")).

(** Modelled from the spec: the hook's [clearCart] is not part of the sources.
    "[clear(owner)] deletes all lines for an owner".  It is step 4 of the
    checkout, of which "any step's error is logged and surfaced to the
    caller", the run ending Failed: a failure of the request is thrown to the
    caller, here the [try] block of [handlePlaceOrder]. *)
Definition clearCart (env : Env) (user : option uuid) : M unit :=
  match user with
  | None => ret tt
  | Some u =>
      r <- remote env (DeleteCartOf u)
             (fun _ => cart_delete (Some u) (fun c => (c_user_id c =? u)%string)) ;;
      throw_if_error r
  end.

(** Modelled from the spec: the hook's loader is not part of the sources.  The
    owner's cart lines, each with the columns of its product as they are in the
    store at load time. *)
Definition loadCart (user : uuid) (s : Store) : list CartItem :=
  flat_map
    (fun c =>
       match find (fun p => (p_id p =? c_product_id c)%string)
                  (products_select (Some user) s) with
       | Some p =>
           [mkCartItem (c_id c) (c_product_id c) (c_quantity c) (c_selected_size c)
                       (mkCartProduct (p_name p) (p_image_url p) (p_price p)
                                      (p_stock_quantity p))]
       | None => []
       end)
    (cart_select (Some user) (fun _ => true) s).

(* ------------------------------------------------------------------ *)
(** ** [src/pages/Cart.tsx] *)

(** [cartItems.reduce((sum, item) => sum + item.product.price * item.quantity, 0)] *)
Definition total (cartItems : list CartItem) : Z :=
  fold_left (fun sum item => sum + cp_price (ci_product item) * ci_quantity item)
            cartItems 0.

Definition handleQuantityChange (env : Env) (user : option uuid)
    (cartItemId : uuid) (newQuantity : Z) : M unit :=
  if newQuantity <? 1 then ret tt
  else updateQuantity env user cartItemId newQuantity.

Definition orderItems_of (order_id : uuid) (cartItems : list CartItem)
    : list NewOrderItem :=
  map (fun item =>
         mkNewOrderItem order_id (ci_product_id item) (ci_quantity item)
                        (cp_price (ci_product item)) (ci_selected_size item))
      cartItems.

(** The body of the loop "Update product stock" of [handlePlaceOrder]. *)
Definition updateStock (env : Env) (user : option uuid) (item : CartItem) : M unit :=
  let v := cp_stock_quantity (ci_product item) - ci_quantity item in
  updated <- remote env (UpdateProductStock (ci_product_id item) v)
               (fun _ => products_update user (ci_product_id item)
                           (with_stock_quantity v)) ;;
  match updated with
  | Err stockError => emit (ConsoleError "Error updating stock:" stockError)
  | Data _ => ret tt
  end.

Definition handlePlaceOrder (env : Env) (user : option uuid)
    (cartItems : list CartItem) : M unit :=
  match user with
  | None => ret tt
  | Some user_id =>
      if (List.length cartItems =? 0)%nat then ret tt
      else
        emit (SetPlacing true) ;;
        try_catch_finally
          ((* Create order *)
           created <- remote env (InsertOrder user_id (total cartItems) "pending")
                        (fun n => orders_insert user (gen_random_uuid env n 0)
                                    (now env n) user_id (total cartItems) "pending") ;;
           order <- throw_if_error created ;;
           (* Create order items *)
           let orderItems := orderItems_of (o_id order) cartItems in
           inserted <- remote env (InsertOrderItems orderItems)
                         (fun n => order_items_insert user
                                     (fun i => gen_random_uuid env n i) orderItems) ;;
           throw_if_error inserted ;;
           (* Update product stock *)
           for_of cartItems (updateStock env user) ;;
           (* Clear cart *)
           clearCart env user ;;
           emit (ToastSuccess "Order placed successfully!") ;;
           emit (Navigate "/orders"))
          (fun error =>
             emit (ConsoleError "Error placing order:" error) ;;
             emit (ToastError "Failed to place order"))
          (emit (SetPlacing false))
  end.

(* ------------------------------------------------------------------ *)
(** ** [src/pages/Products.tsx] *)

(** [ORDER BY key DESC], keeping the stored order among equal keys. *)
Fixpoint insert_desc {A} (key : A -> Z) (x : A) (l : list A) : list A :=
  match l with
  | [] => [x]
  | y :: l' => if key y <=? key x then x :: l else y :: insert_desc key x l'
  end.

Definition order_desc {A} (key : A -> Z) (l : list A) : list A :=
  fold_right (insert_desc key) [] l.

(** The rows [fetchProducts] hands to [setProducts]:
    [from('products').select('*').eq('is_active', true).order('created_at', desc)]. *)
Definition fetchProducts (caller : option uuid) (s : Store) : list Product :=
  order_desc p_created_at (filter p_is_active (products_select caller s)).

(** Every character of the string is ASCII.  On such strings the string
    functions below are the JavaScript ones. *)
Fixpoint ascii_only (s : string) : bool :=
  match s with
  | EmptyString => true
  | String c s' => (nat_of_ascii c <? 128)%nat && ascii_only s'
  end.

(** [toLowerCase] on the characters of an ASCII string: the letters A to Z
    change, nothing else does.  (Beyond ASCII [String.prototype.toLowerCase]
    follows the Unicode case mappings, which are not modelled.) *)
Definition lower_ascii (c : ascii) : ascii :=
  let n := nat_of_ascii c in
  if ((65 <=? n) && (n <=? 90))%nat then ascii_of_nat (n + 32) else c.

Fixpoint toLowerCase (s : string) : string :=
  match s with
  | EmptyString => EmptyString
  | String c s' => String (lower_ascii c) (toLowerCase s')
  end.

(** [s.includes(sub)] *)
Fixpoint includes (s sub : string) : bool :=
  String.prefix sub s
  || match s with
     | EmptyString => false
     | String _ s' => includes s' sub
     end.

Definition matchesPrice (priceRange : string) (price : Z) : bool :=
  if (priceRange =? "under-100")%string then price <? 10000
  else if (priceRange =? "100-200")%string then (10000 <=? price) && (price <=? 20000)
  else if (priceRange =? "over-200")%string then 20000 <? price
  else true.

Definition filteredProducts (products : list Product)
    (searchTerm selectedBrand priceRange : string) : list Product :=
  filter
    (fun product =>
       let matchesSearch :=
         includes (toLowerCase (p_name product)) (toLowerCase searchTerm)
         || includes (toLowerCase (p_brand product)) (toLowerCase searchTerm) in
       let matchesBrand :=
         (selectedBrand =? "all")%string || (p_brand product =? selectedBrand)%string in
       matchesSearch && matchesBrand && matchesPrice priceRange (p_price product))
    products.

(* ------------------------------------------------------------------ *)
(** ** [src/pages/Orders.tsx] *)

(** The [OrderItem] interface; the embedded [product:products (name, image_url)]
    is [None] when the reader may not select the referenced product row. *)
Record OrderItem := mkOrderItem {
  item_id : uuid;
  item_quantity : Z;
  item_price : Z;
  item_selected_size : string;
  item_product : option (string * string)
}.

(** The [Order] interface. *)
Record Order := mkOrder {
  order_id : uuid;
  order_total_amount : Z;
  order_status : string;
  order_created_at : Z;
  order_order_items : list OrderItem
}.

(** Orders policies: "Users can view own orders", "Admins can view all orders". *)
Definition orders_select (caller : option uuid) (s : Store) : list OrderRow :=
  filter (fun o => uid_is caller (o_user_id o) || is_admin s caller) (orders s).

(** Order-items policies: "Users can view own order items",
    "Admins can view all order items". *)
Definition order_items_select (caller : option uuid) (s : Store)
    : list OrderItemRow :=
  filter (fun r => owns_order s caller (oi_order_id r) || is_admin s caller)
         (order_items s).

Definition embed_product (caller : option uuid) (s : Store) (product_id : uuid)
    : option (string * string) :=
  match find (fun p => (p_id p =? product_id)%string) (products_select caller s) with
  | Some p => Some (p_name p, p_image_url p)
  | None => None
  end.

Definition embed_item (caller : option uuid) (s : Store) (r : OrderItemRow)
    : OrderItem :=
  mkOrderItem (oi_id r) (oi_quantity r) (oi_price r) (oi_selected_size r)
              (embed_product caller s (oi_product_id r)).

(** The rows [fetchOrders] hands to [setOrders]: the user's orders, newest
    first, each with its order items and their embedded product. *)
Definition fetchOrders (user : uuid) (s : Store) : list Order :=
  map (fun o =>
         mkOrder (o_id o) (o_total_amount o) (o_status o) (o_created_at o)
                 (map (embed_item (Some user) s)
                      (filter (fun r => (oi_order_id r =? o_id o)%string)
                              (order_items_select (Some user) s))))
      (order_desc o_created_at
         (filter (fun o => (o_user_id o =? user)%string)
                 (orders_select (Some user) s))).

(* ------------------------------------------------------------------ *)
(** ** [src/pages/Admin.tsx] *)

(** The admin page's [fetchProducts]: every product row the caller may see;
    a failure is logged and reported. *)
Definition adminFetchProducts (env : Env) (user : option uuid) : M unit :=
  try_catch
    (r <- remote env SelectProducts
            (fun _ s => Data (order_desc p_created_at (products_select user s), s)) ;;
     throw_if_error r ;;
     ret tt)
    (fun error =>
       emit (ConsoleError "Error fetching products:" error) ;;
       emit (ToastError "Failed to load products")).

Definition toggleProductStatus (env : Env) (user : option uuid)
    (productId : uuid) (currentStatus : bool) : M unit :=
  try_catch
    (r <- remote env (UpdateProductActive productId (negb currentStatus))
            (fun _ => products_update user productId
                        (with_is_active (negb currentStatus))) ;;
     throw_if_error r ;;
     emit (ToastSuccess (if negb currentStatus
                         then "Product activated successfully"
                         else "Product deactivated successfully")) ;;
     adminFetchProducts env user)
    (fun error =>
       emit (ConsoleError "Error updating product status:" error) ;;
       emit (ToastError "Failed to update product status")).

(* ------------------------------------------------------------------ *)
(** ** Sample data

    Three of the rows the migration inserts into [public.products], two
    accounts, and an environment in which no request is lost. *)

Module Sample.

Definition nike : Product :=
  mkProduct "p-nike" "Nike Air Max 270"
            "Comfortable running shoes with Air Max technology" 12999
            "https://images.unsplash.com/photo-1542291026-7eec264c27ff?w=400"
            "Nike" ["7"; "8"; "9"; "10"; "11"] 50 true 1.

Definition converse : Product :=
  mkProduct "p-converse" "Converse Chuck Taylor"
            "Classic canvas sneakers for everyday wear" 5999
            "https://images.unsplash.com/photo-1539185441755-769473a23570?w=400"
            "Converse" ["6"; "7"; "8"; "9"; "10"; "11"] 75 true 1.

Definition new_balance : Product :=
  mkProduct "p-nb" "New Balance 990v5"
            "Made in USA premium running shoes" 19999
            "https://images.unsplash.com/photo-1552346154-21d32810aba3?w=400"
            "New Balance" ["7"; "8"; "9"; "10"; "11"; "12"] 20 true 1.

Definition catalog : list Product := [converse; nike; new_balance].

Definition alice : uuid := "u-alice".
Definition root : uuid := "u-root".

Definition roles : list (uuid * app_role) :=
  [(alice, role_user); (root, role_user); (root, role_admin)].

Fixpoint tally (n : nat) : string :=
  match n with
  | O => EmptyString
  | S n' => String "i" (tally n')
  end.

(** Generated keys, distinct for distinct request and row numbers. *)
Definition keys (n i : nat) : uuid :=
  String.append "id-" (String.append (tally n) (String.append "-" (tally i))).

Definition reliable : Env := mkEnv (fun _ => false) keys (fun n => 100 + Z.of_nat n).

(** The same, except that request number [k] is lost. *)
Definition losing (k : nat) : Env :=
  mkEnv (fun n => (n =? k)%nat) keys (fun n => 100 + Z.of_nat n).

Definition shop : Store := mkStore catalog [] [] [] roles.

(** Alice holds one pair of Nike, size 9. *)
Definition shop_with_cart : Store :=
  mkStore catalog [mkCartRow "c-1" alice "p-nike" 1 "9"] [] [] roles.

(** The administrator holds Nike in two sizes: two pairs of 9, one of 8. *)
Definition shop_two_sizes : Store :=
  mkStore catalog
          [mkCartRow "c-2" root "p-nike" 2 "9"; mkCartRow "c-3" root "p-nike" 1 "8"]
          [] [] roles.

(** Alice bought one pair of Nike some time ago. *)
Definition shop_history : Store :=
  mkStore catalog []
          [mkOrderRow "o-1" alice 12999 "delivered" 50]
          [mkOrderItemRow "oi-1" "o-1" "p-nike" 1 12999 "9"]
          roles.

(** The administrator holds 21 pairs of New Balance; since the line was put
    in the cart the stock has come down to 20. *)
Definition shop_short : Store :=
  mkStore catalog [mkCartRow "c-4" root "p-nb" 21 "10"] [] [] roles.

End Sample.

(* ------------------------------------------------------------------ *)
(** ** Observations on a run *)

Definition is_error_event (ev : Event) : bool :=
  match ev with
  | ConsoleError _ _ | ToastError _ => true
  | _ => false
  end.

(** A run from [w] signals an error when it throws, or logs or notifies one. *)
Definition signals_error {A} (w : World) (r : Result A * World) : bool :=
  match fst r with
  | Throw _ => true
  | Ok _ => existsb is_error_event (skipn (List.length (trace w)) (trace (snd r)))
  end.

(** The stock values written by a run, in order. *)
Definition stock_writes (t : list Event) : list (uuid * Z) :=
  flat_map (fun ev =>
              match ev with
              | Request (UpdateProductStock p v) => [(p, v)]
              | _ => []
              end) t.

Definition placed : Event := ToastSuccess "Order placed successfully!".
Definition not_placed : Event := ToastError "Failed to place order".

(** [sum(quantity * price)] over order lines. *)
Definition lines_amount (rows : list OrderItemRow) : Z :=
  fold_left (fun sum r => sum + oi_quantity r * oi_price r) rows 0.

Definition lines_of (s : Store) (id : uuid) : list OrderItemRow :=
  filter (fun r => (oi_order_id r =? id)%string) (order_items s).

(** Every order line belongs to a stored order ([REFERENCES orders(id)]). *)
Definition lines_reference_orders (s : Store) : Prop :=
  forall r, In r (order_items s) -> mem (oi_order_id r) (map o_id (orders s)) = true.

Definition stocks_nonnegative (s : Store) : Prop :=
  forall p, In p (products s) -> 0 <= p_stock_quantity p.

(* ------------------------------------------------------------------ *)
(** ** Notions used in the statements *)

Definition one_nike : CartItem :=
  mkCartItem "c-1" "p-nike" 1 "9"
             (mkCartProduct "Nike Air Max 270"
                "https://images.unsplash.com/photo-1542291026-7eec264c27ff?w=400"
                12999 50).

(** [R] relates the world before a handler to the world after it. *)
Definition keeps (R : World -> World -> Prop) {A} (m : M A) : Prop :=
  forall w, R w (snd (m w)).

(** A handler only ever appends to the trace. *)
Definition extends (w w' : World) : Prop :=
  exists rest, trace w' = trace w ++ rest.

Definition total_ok {A} (m : M A) : Prop := forall w, exists a, fst (m w) = Ok a.

Definition on_store (P : Store -> Store -> Prop) : World -> World -> Prop :=
  fun w w' => P (db w) (db w').

(** Orders, order lines and roles are the same. *)
Definition same_ledger (s s' : Store) : Prop :=
  orders s' = orders s /\ order_items s' = order_items s
  /\ user_roles s' = user_roles s.

(** Products and roles are the same. *)
Definition same_catalog (s s' : Store) : Prop :=
  products s' = products s /\ user_roles s' = user_roles s.

Definition keeps_nonnegative (s s' : Store) : Prop :=
  stocks_nonnegative s -> stocks_nonnegative s'.



(** Everything but the product rows is the same. *)
Definition only_products (s s' : Store) : Prop :=
  cart s' = cart s /\ same_ledger s s'.

(** The two inserts of [handlePlaceOrder], as store operations. *)
Definition createOrder (env : Env) (u : uuid) (cartItems : list CartItem)
    : nat -> Store -> Response (OrderRow * Store) :=
  fun n => orders_insert (Some u) (gen_random_uuid env n 0) (now env n) u
                         (total cartItems) "pending".

Definition createOrderItems (env : Env) (u : uuid) (order : OrderRow)
    (cartItems : list CartItem) : nat -> Store -> Response (unit * Store) :=
  fun n => order_items_insert (Some u) (fun i => gen_random_uuid env n i)
                              (orderItems_of (o_id order) cartItems).

(** What the run ends with when a step throws. *)
Definition failed_with (e : Error) : list Event :=
  [ConsoleError "Error placing order:" e; not_placed; SetPlacing false].

(** The world after steps 3 and 4, entered from [w2]. *)
Definition finish (env : Env) (u : uuid) (cartItems : list CartItem) (w2 : World)
    : World :=
  snd (clearCart env (Some u)
         (snd (for_of cartItems (updateStock env (Some u)) w2))).

(** The value step 3 writes for a cart line. *)
Definition stock_write (item : CartItem) : uuid * Z :=
  (ci_product_id item, cp_stock_quantity (ci_product item) - ci_quantity item).


(** The store after the price of product [pid] was set to [v]. *)
Definition repriced (pid : uuid) (v : Z) (s : Store) : Store :=
  set_products
    (map (fun p => if (p_id p =? pid)%string then with_price v p else p)
         (products s)) s.

(** The columns of an order line that come from the cart. *)
Definition line_columns (r : OrderItemRow) : uuid * Z * Z * string :=
  (oi_product_id r, oi_quantity r, oi_price r, oi_selected_size r).

Definition cart_columns (item : CartItem) : uuid * Z * Z * string :=
  (ci_product_id item, ci_quantity item, cp_price (ci_product item),
   ci_selected_size item).

Definition line_key (c : CartRow) : uuid * uuid * string :=
  (c_user_id c, c_product_id c, c_selected_size c).

(** [(owner, item, variant)] identifies a cart line. *)
Definition unique_lines (l : list CartRow) : Prop := NoDup (map line_key l).

(** The store after [UPDATE products SET is_active = false WHERE id = pid]. *)
Definition deactivated (pid : uuid) (s : Store) : Store :=
  set_products
    (map (fun p => if (p_id p =? pid)%string then with_is_active false p else p)
         (products s)) s.

(** An order as read by [fetchOrders], without the embedded products. *)
Definition bare_item (i : OrderItem) : OrderItem :=
  mkOrderItem (item_id i) (item_quantity i) (item_price i) (item_selected_size i) None.

Definition bare_order (o : Order) : Order :=
  mkOrder (order_id o) (order_total_amount o) (order_status o) (order_created_at o)
          (map bare_item (order_order_items o)).

(* ------------------------------------------------------------------ *)
(** ** Further handlers of the pages *)

(** A request the trace does not itemise: it is numbered and answered like
    any other, and the store changes only when the reply carries no error. *)
Definition request {A} (env : Env)
    (op : nat -> Store -> Response (A * Store)) : M (Response A) :=
  fun w =>
    let n := tick w in
    match answer env n op (db w) with
    | Data (a, s') => (Ok (Data a), mkWorld s' (S n) (trace w))
    | Err e => (Ok (Err e), mkWorld (db w) (S n) (trace w))
    end.

(** *** [src/pages/Products.tsx] *)

(** [selectedSizes[productId]] on the record of selected sizes. *)
Definition selectedSizes_get (selectedSizes : list (uuid * string))
    (productId : uuid) : option string :=
  match find (fun kv => (fst kv =? productId)%string) selectedSizes with
  | Some kv => Some (snd kv)
  | None => None
  end.

Definition handleAddToCart (env : Env) (user : option uuid)
    (selectedSizes : list (uuid * string)) (productId : uuid) : M unit :=
  match user with
  | None => emit (ToastError "Please sign in to add items to cart")
  | Some _ =>
      match selectedSizes_get selectedSizes productId with
      | None | Some EmptyString => emit (ToastError "Please select a size")
      | Some selectedSize => addToCart env user productId selectedSize
      end
  end.

(** [[...new Set(values)]]: each value once, in the order of first occurrence. *)
Definition set_values (values : list string) : list string :=
  fold_left (fun seen v => if mem v seen then seen else seen ++ [v]) values [].

(** [const brands = [...new Set(products.map(p => p.brand))]] *)
Definition brands (products : list Product) : list string :=
  set_values (map p_brand products).

(** *** [src/pages/Admin.tsx] *)

(** The store without product [pid] and without the cart lines that
    reference it. *)
Definition without_product (pid : uuid) (s : Store) : Store :=
  set_cart (filter (fun c => negb (c_product_id c =? pid)%string) (cart s))
           (set_products (filter (fun p => negb (p_id p =? pid)%string) (products s)) s).

(** [DELETE FROM products WHERE id = pid].  Only administrators may delete;
    an order line that references the product blocks the deletion
    ([order_items.product_id REFERENCES products(id)]), cart lines that
    reference it go with it ([cart.product_id ... ON DELETE CASCADE]). *)
Definition products_delete (caller : option uuid) (pid : uuid) (s : Store)
    : Response (unit * Store) :=
  if is_admin s caller
  then if mem pid (map p_id (products s))
          && existsb (fun r => (oi_product_id r =? pid)%string) (order_items s)
       then Err ForeignKeyViolation
       else Data (tt, without_product pid s)
  else Data (tt, s).

Definition handleDelete (env : Env) (user : option uuid) (productId : uuid)
    : M unit :=
  try_catch
    (r <- request env (fun _ => products_delete user productId) ;;
     throw_if_error r ;;
     emit (ToastSuccess "Product deleted successfully") ;;
     adminFetchProducts env user)
    (fun error =>
       emit (ConsoleError "Error deleting product:" error) ;;
       emit (ToastError "Failed to delete product")).

(** [s.split(sep)] for a one-character separator. *)
Fixpoint split (sep : ascii) (s : string) : list string :=
  match s with
  | EmptyString => [EmptyString]
  | String c s' =>
      if Ascii.eqb c sep then EmptyString :: split sep s'
      else match split sep s' with
           | piece :: pieces => String c piece :: pieces
           | [] => [String c EmptyString]
           end
  end.

(** The white space [trim] strips, among the ASCII characters: tab, line
    feed, vertical tab, form feed, carriage return, space.  (Beyond ASCII
    [String.prototype.trim] also strips the no-break space, the byte order
    mark and the Unicode space and line separators, which are not modelled.) *)
Definition is_space (c : ascii) : bool :=
  let n := nat_of_ascii c in
  ((9 <=? n) && (n <=? 13) || (n =? 32))%nat.

Fixpoint trimStart (s : string) : string :=
  match s with
  | EmptyString => EmptyString
  | String c s' => if is_space c then trimStart s' else s
  end.

Fixpoint trimEnd (s : string) : string :=
  match s with
  | EmptyString => EmptyString
  | String c s' =>
      match trimEnd s' with
      | EmptyString => if is_space c then EmptyString else String c EmptyString
      | rest => String c rest
      end
  end.

(** [s.trim()] *)
Definition trim (s : string) : string := trimEnd (trimStart s).

(** [l.join(sep)] *)
Fixpoint join (sep : string) (l : list string) : string :=
  match l with
  | [] => EmptyString
  | [x] => x
  | x :: l' => String.append x (String.append sep (join sep l'))
  end.

(** [formData.size_available.split(',').map(s => s.trim())] in [handleSubmit]. *)
Definition sizes_of_form (size_available : string) : list string :=
  map trim (split "," size_available).

(** [product.size_available.join(', ')] in [handleEdit]. *)
Definition form_of_sizes (size_available : list string) : string :=
  join ", " size_available.

(** One day of the analytics: [{ count, revenue }]. *)
Record DayTotals := mkDayTotals {
  d_count : Z;
  d_revenue : Z
}.

(** [series[key]] *)
Definition series_get (key : string) (series : list (string * DayTotals))
    : option DayTotals :=
  match find (fun kv => (fst kv =? key)%string) series with
  | Some kv => Some (snd kv)
  | None => None
  end.

(** [series[key] = v]: an existing key keeps its place, a new key is added
    at the end. *)
Fixpoint series_set (key : string) (v : DayTotals)
    (series : list (string * DayTotals)) : list (string * DayTotals) :=
  match series with
  | [] => [(key, v)]
  | (k, old) :: rest =>
      if (k =? key)%string then (k, v) :: rest
      else (k, old) :: series_set key v rest
  end.

(** The loop over the thirty days of the window: every day starts at zero. *)
Definition empty_series (window : list string) : list (string * DayTotals) :=
  fold_left (fun series key => series_set key (mkDayTotals 0 0) series) window [].

(** The body of [ordersData.forEach]; [day] is
    [new Date(created_at).toISOString().slice(0, 10)]. *)
Definition count_order (day : Z -> string) (series : list (string * DayTotals))
    (o : OrderRow) : list (string * DayTotals) :=
  let key := day (o_created_at o) in
  let series1 :=
    match series_get key series with
    | Some _ => series
    | None => series_set key (mkDayTotals 0 0) series
    end in
  match series_get key series1 with
  | Some v => series_set key (mkDayTotals (d_count v + 1)
                                          (d_revenue v + o_total_amount o)) series1
  | None => series1
  end.

(** The series [fetchAnalytics] builds from the rows of the query. *)
Definition analyticsSeries (day : Z -> string) (window : list string)
    (ordersData : list OrderRow) : list (string * DayTotals) :=
  fold_left (count_order day) ordersData (empty_series window).

(** What [fetchAnalytics] hands to [setOrdersByDay] and [setRevenueByDay]. *)
Definition ordersByDay (series : list (string * DayTotals)) : list (string * Z) :=
  map (fun kv => (fst kv, d_count (snd kv))) series.

Definition revenueByDay (series : list (string * DayTotals)) : list (string * Z) :=
  map (fun kv => (fst kv, d_revenue (snd kv))) series.

(** *** Notions used in the further statements *)

(** Newest first. *)
Definition descending {A} (key : A -> Z) (l : list A) : Prop :=
  StronglySorted (fun a b => key b <= key a) l.


(** The products are as they were unless the caller is an administrator. *)
Definition catalog_guarded (caller : option uuid) (s s' : Store) : Prop :=
  is_admin s caller = false -> same_catalog s s'.

(** The cart lines of the other owners are as they were. *)
Definition others_cart (u : uuid) (s : Store) : list CartRow :=
  filter (fun c => negb (c_user_id c =? u)%string) (cart s).

(** Every cart line and every order line references a stored product. *)
Definition references_products (s : Store) : Prop :=
  (forall c, In c (cart s) -> mem (c_product_id c) (map p_id (products s)) = true)
  /\ (forall r, In r (order_items s) ->
                mem (oi_product_id r) (map p_id (products s)) = true).

Definition sum_counts (series : list (string * DayTotals)) : Z :=
  fold_right (fun kv acc => d_count (snd kv) + acc) 0 series.

Definition sum_revenue (series : list (string * DayTotals)) : Z :=
  fold_right (fun kv acc => d_revenue (snd kv) + acc) 0 series.

Definition sum_amounts (rows : list OrderRow) : Z :=
  fold_right (fun o acc => o_total_amount o + acc) 0 rows.

Fixpoint has_char (c : ascii) (s : string) : bool :=
  match s with
  | EmptyString => false
  | String c' s' => Ascii.eqb c' c || has_char c s'
  end.

(** The handler appended events, and all of them pass [ok]. *)
Definition adds (ok : Event -> bool) (w w' : World) : Prop :=
  exists rest, trace w' = trace w ++ rest /\ forallb ok rest = true.

(** What steps 3 and 4 of a checkout may leave in the trace. *)
Definition background (ev : Event) : bool :=
  match ev with
  | Request _ | ConsoleError _ _ => true
  | _ => false
  end.

(** The cart lines of the other owners stay. *)
Definition keeps_others (u : uuid) (s s' : Store) : Prop :=
  others_cart u s' = others_cart u s.

(** References to products are kept. *)
Definition keeps_references (s s' : Store) : Prop :=
  references_products s -> references_products s'.

(** A size the form can hold: ASCII characters, no comma, no white space
    around it. *)
Definition plain_size (x : string) : Prop :=
  ascii_only x = true /\ has_char "," x = false /\ trim x = x.


(* ------------------------------------------------------------------ *)
(** ** Relations every step of a handler maintains *)

Section Keeps.

Variable R : World -> World -> Prop.
Hypothesis R_refl : forall w, R w w.
Hypothesis R_trans : forall a b c, R a b -> R b c -> R a c.

Lemma keeps_ret {A} (a : A) : keeps R (ret a).
Proof using R_refl R_trans. intro w; apply R_refl. Qed.

Lemma keeps_throw {A} (e : Error) : keeps R (@throw A e).
Proof using R_refl R_trans. intro w; apply R_refl. Qed.

Lemma keeps_throw_if_error {A} (r : Response A) : keeps R (throw_if_error r).
Proof using R_refl R_trans. destruct r; [apply keeps_ret | apply keeps_throw]. Qed.

Lemma keeps_bind {A B} (m : M A) (k : A -> M B) :
  keeps R m -> (forall a, keeps R (k a)) -> keeps R (bind m k).
Proof using R_refl R_trans.
  intros Hm Hk w. unfold bind.
  specialize (Hm w). destruct (m w) as [[a | e] w1]; simpl in *.
  - eapply R_trans; [exact Hm | apply Hk].
  - exact Hm.
Qed.

Lemma keeps_try_catch_finally (body : M unit) (handler : Error -> M unit)
    (final : M unit) :
  keeps R body -> (forall e, keeps R (handler e)) -> keeps R final ->
  keeps R (try_catch_finally body handler final).
Proof using R_refl R_trans.
  intros Hb Hh Hf w. unfold try_catch_finally.
  specialize (Hb w). destruct (body w) as [[[] | e] w1]; simpl in *.
  - eapply R_trans; [exact Hb | apply Hf].
  - specialize (Hh e w1). destruct (handler e w1) as [[[] | e'] w2]; simpl in *.
    + eapply R_trans; [exact Hb |]. eapply R_trans; [exact Hh | apply Hf].
    + specialize (Hf w2). destruct (final w2) as [[[] | e''] w3]; simpl in *;
        (eapply R_trans; [exact Hb |]; eapply R_trans; [exact Hh | exact Hf]).
Qed.

Lemma keeps_try_catch (body : M unit) (handler : Error -> M unit) :
  keeps R body -> (forall e, keeps R (handler e)) -> keeps R (try_catch body handler).
Proof using R_refl R_trans.
  intros Hb Hh. apply keeps_try_catch_finally; [exact Hb | exact Hh | apply keeps_ret].
Qed.

Lemma keeps_for_of {A} (l : list A) (body : A -> M unit) :
  (forall x, keeps R (body x)) -> keeps R (for_of l body).
Proof using R_refl R_trans.
  intro Hb. induction l as [| x l IH]; simpl.
  - apply keeps_ret.
  - apply keeps_bind; auto.
Qed.

Lemma keeps_for_of_in {A} (l : list A) (body : A -> M unit) :
  (forall x, In x l -> keeps R (body x)) -> keeps R (for_of l body).
Proof using R_refl R_trans.
  induction l as [| x l IH]; intro Hb; simpl.
  - apply keeps_ret.
  - apply keeps_bind.
    + apply Hb; left; reflexivity.
    + intros _. apply IH. intros y Hy. apply Hb; right; exact Hy.
Qed.

Lemma keeps_remote {A} (env : Env) (r : Req)
    (op : nat -> Store -> Response (A * Store)) :
  (forall w, R w (mkWorld (db w) (S (tick w)) (trace w ++ [Request r]))) ->
  (forall w a s', answer env (tick w) op (db w) = Data (a, s') ->
                  R w (mkWorld s' (S (tick w)) (trace w ++ [Request r]))) ->
  keeps R (remote env r op).
Proof using R_refl R_trans.
  intros Hlost Hdone w. unfold remote.
  destruct (answer env (tick w) op (db w)) as [[a s'] | e] eqn:Ha; simpl.
  - apply Hdone with a; exact Ha.
  - apply Hlost.
Qed.

End Keeps.

Lemma extends_refl w : extends w w.
Proof. exists []; symmetry; apply app_nil_r. Qed.

Lemma extends_trans a b c : extends a b -> extends b c -> extends a c.
Proof.
  intros [r1 H1] [r2 H2]. exists (r1 ++ r2).
  rewrite H2, H1. symmetry; apply app_assoc.
Qed.

Lemma extends_emit ev : keeps extends (emit ev).
Proof. intro w; exists [ev]; reflexivity. Qed.

Lemma extends_remote {A} env r (op : nat -> Store -> Response (A * Store)) :
  keeps extends (remote env r op).
Proof.
  apply (keeps_remote _ extends_refl extends_trans);
    intros; exists [Request r]; reflexivity.
Qed.

(** Decompose a handler along its control structure; [leaf] closes the
    primitive steps. *)
Ltac step_keeps R_refl R_trans leaf :=
  repeat first
    [ leaf
    | match goal with
      | |- forall _, _ => intro
      | |- keeps _ (ret _) => apply (keeps_ret _ R_refl R_trans)
      | |- keeps _ (throw _) => apply (keeps_throw _ R_refl R_trans)
      | |- keeps _ (throw_if_error _) => apply (keeps_throw_if_error _ R_refl R_trans)
      | |- keeps _ (for_of _ _) => apply (keeps_for_of _ R_refl R_trans)
      | |- keeps _ (try_catch _ _) => apply (keeps_try_catch _ R_refl R_trans)
      | |- keeps _ (try_catch_finally _ _ _) =>
          apply (keeps_try_catch_finally _ R_refl R_trans)
      | |- keeps _ (bind _ _) => apply (keeps_bind _ R_refl R_trans)
      | |- keeps _ (match ?x with _ => _ end) => destruct x
      end ].

Lemma extends_clearCart env user : keeps extends (clearCart env user).
Proof.
  unfold clearCart. destruct user as [u |].
  - step_keeps extends_refl extends_trans
      ltac:(first [apply extends_remote | apply extends_emit]).
  - apply (keeps_ret _ extends_refl extends_trans).
Qed.

Lemma extends_updateStock env user item : keeps extends (updateStock env user item).
Proof.
  unfold updateStock.
  step_keeps extends_refl extends_trans
    ltac:(first [apply extends_remote | apply extends_emit]).
Qed.

(* ------------------------------------------------------------------ *)
(** ** The catalog filter *)

(** C6, as stated, fails: 199.99 is not over 200, so the bracket [over-200]
    does not return the 199.99 item, and [100-200] returns two items. *)
Lemma price_bracket_counterexample :
  filteredProducts Sample.catalog "" "all" "over-200" <> [Sample.new_balance]
  /\ filteredProducts Sample.catalog "" "all" "100-200" <> [Sample.nike].
Proof. split; vm_compute; discriminate. Qed.

(** C6, amended: over the items priced 59.99, 129.99 and 199.99 the bracket
    [under-100] returns exactly the 59.99 item, [100-200] returns the 129.99
    and the 199.99 item, and [over-200] returns nothing; the three brackets
    are [< 100], [100..200] and [> 200], and every price lies in exactly one. *)
Theorem price_bracket_filter :
  filteredProducts Sample.catalog "" "all" "under-100" = [Sample.converse]
  /\ filteredProducts Sample.catalog "" "all" "100-200"
     = [Sample.nike; Sample.new_balance]
  /\ filteredProducts Sample.catalog "" "all" "over-200" = []
  /\ forall price,
       matchesPrice "under-100" price = (price <? 10000)
       /\ matchesPrice "100-200" price = ((10000 <=? price) && (price <=? 20000))
       /\ matchesPrice "over-200" price = (20000 <? price)
       /\ (Nat.b2n (matchesPrice "under-100" price)
           + Nat.b2n (matchesPrice "100-200" price)
           + Nat.b2n (matchesPrice "over-200" price) = 1)%nat.
Proof.
  repeat split; try reflexivity.
  unfold matchesPrice; simpl.
  destruct (price <? 10000) eqn:Hlo, (10000 <=? price) eqn:Hmid,
           (price <=? 20000) eqn:Hhi, (20000 <? price) eqn:Hup;
    simpl; try reflexivity; lia.
Qed.

(* ------------------------------------------------------------------ *)
(** ** Guards of the cart page *)

(** C5, as stated, fails: with an empty cart, or with nobody signed in, the
    handler returns normally and neither logs nor notifies an error. *)
Lemma place_order_guard_counterexample :
  signals_error (start Sample.shop)
    (handlePlaceOrder Sample.reliable (Some Sample.alice) []
       (start Sample.shop)) = false
  /\ signals_error (start Sample.shop)
       (handlePlaceOrder Sample.reliable None [one_nike]
          (start Sample.shop)) = false.
Proof. split; reflexivity. Qed.

(** C5, amended: a place-order request enters Submitting ([setPlacing(true)]
    is the first thing it does) when somebody is signed in and the cart has a
    line; otherwise the handler returns at once, without raising or reporting
    an error, without sending a request and without changing the store. *)
Theorem place_order_guard (env : Env) (user : option uuid)
    (cartItems : list CartItem) (w : World) :
  (user = None \/ cartItems = [] ->
     handlePlaceOrder env user cartItems w = (Ok tt, w))
  /\ (user <> None -> cartItems <> [] ->
        exists rest,
          trace (snd (handlePlaceOrder env user cartItems w))
          = trace w ++ SetPlacing true :: rest).
Proof.
  split.
  - intros [-> | ->]; [reflexivity | destruct user; reflexivity].
  - intros Hu Hc.
    destruct user as [u |]; [| congruence].
    destruct cartItems as [| item items]; [congruence |].
    unfold handlePlaceOrder.
    cbn [List.length Nat.eqb].
    unfold bind at 1. cbn [emit].
    match goal with
    | |- exists rest, trace (snd (?m ?w1)) = _ =>
        assert (H : keeps extends m); [| destruct (H w1) as [rest Hrest]]
    end.
    + step_keeps extends_refl extends_trans
        ltac:(first [ apply extends_remote | apply extends_emit
                    | apply extends_clearCart | apply extends_updateStock ]).
    + exists rest. rewrite Hrest. cbn [trace].
      rewrite <- app_assoc. reflexivity.
Qed.

Lemma place_order_guard_witness :
  handlePlaceOrder Sample.reliable (Some Sample.alice) []
    (start Sample.shop) = (Ok tt, start Sample.shop)
  /\ exists rest,
       trace (snd (handlePlaceOrder Sample.reliable (Some Sample.alice) [one_nike]
                     (start Sample.shop)))
       = trace (start Sample.shop) ++ SetPlacing true :: rest.
Proof.
  split.
  - apply (place_order_guard Sample.reliable (Some Sample.alice) []
             (start Sample.shop)).
    right; reflexivity.
  - apply (place_order_guard Sample.reliable (Some Sample.alice) [one_nike]
             (start Sample.shop)); discriminate.
Defined.

(** C8, as stated, fails: for a quantity below 1 the handler returns normally;
    no error is raised, logged or notified. *)
Lemma quantity_guard_counterexample :
  signals_error (start Sample.shop_with_cart)
    (handleQuantityChange Sample.reliable (Some Sample.alice) "c-1" 0
       (start Sample.shop_with_cart)) = false
  /\ signals_error (start Sample.shop_with_cart)
       (handleQuantityChange Sample.reliable (Some Sample.alice) "c-1" (-2)
          (start Sample.shop_with_cart)) = false.
Proof. split; reflexivity. Qed.

(** C8, amended: for every cart line and every n < 1 the quantity handler
    returns at once: it sends no update request, changes no line of the cart
    and neither raises nor reports an error. *)
Theorem quantity_guard (env : Env) (user : option uuid) (cartItemId : uuid)
    (newQuantity : Z) (w : World) :
  newQuantity < 1 ->
  handleQuantityChange env user cartItemId newQuantity w = (Ok tt, w).
Proof.
  intro Hn. unfold handleQuantityChange.
  apply Z.ltb_lt in Hn. rewrite Hn. reflexivity.
Qed.

Lemma quantity_guard_witness :
  handleQuantityChange Sample.reliable (Some Sample.alice) "c-1" 0
    (start Sample.shop_with_cart)
  = (Ok tt, start Sample.shop_with_cart).
Proof.
  apply (quantity_guard Sample.reliable (Some Sample.alice) "c-1" 0
           (start Sample.shop_with_cart)).
  lia.
Defined.

(** At or above 1 the new quantity is written to the line. *)
Example quantity_change_applies :
  cart (db (snd (handleQuantityChange Sample.reliable (Some Sample.alice) "c-1" 3
                   (start Sample.shop_with_cart))))
  = [mkCartRow "c-1" Sample.alice "p-nike" 3 "9"].
Proof. reflexivity. Qed.

(* ------------------------------------------------------------------ *)
(** ** Adding to the cart *)

Lemma same_line_key u i v c :
  same_line u i v c = true <-> line_key c = (u, i, v).
Proof.
  unfold same_line, line_key. rewrite !andb_true_iff, !String.eqb_eq.
  split; [intros [[-> ->] ->]; reflexivity | intro H; inversion H; auto].
Qed.

Lemma no_same_line_not_in u i v l :
  existsb (same_line u i v) l = false -> ~ In (u, i, v) (map line_key l).
Proof.
  intros Hex Hin. apply in_map_iff in Hin as [c [Hk Hc]].
  apply same_line_key in Hk.
  assert (existsb (same_line u i v) l = true) by (apply existsb_exists; eauto).
  congruence.
Qed.

Lemma unique_lines_snoc l c :
  unique_lines l -> ~ In (line_key c) (map line_key l) -> unique_lines (l ++ [c]).
Proof.
  unfold unique_lines. intros Hl Hc. rewrite map_app. simpl.
  apply NoDup_app; [exact Hl | repeat constructor; intros [] | ].
  intros k Hk [<- | []]. exact (Hc Hk).
Qed.

Lemma line_key_with_quantity (caller : option uuid) (pred : CartRow -> bool) q l :
  map line_key
      (map (fun c => if uid_is caller (c_user_id c) && pred c
                     then with_quantity q c else c) l)
  = map line_key l.
Proof.
  rewrite map_map. apply map_ext. intro c.
  destruct (uid_is caller (c_user_id c) && pred c); reflexivity.
Qed.

Lemma addToCart_cart env user i v w :
  let c := cart (db w) in
  let c' := cart (db (snd (addToCart env user i v w))) in
  map line_key c' = map line_key c
  \/ exists row, c' = c ++ [row] /\ ~ In (line_key row) (map line_key c).
Proof.
  unfold addToCart. destruct user as [u |]; [| left; reflexivity].
  unfold try_catch, try_catch_finally, bind, remote, answer, throw_if_error.
  cbn [db tick trace].
  destruct (fails env (tick w)); cbn.
  - left; reflexivity.
  - destruct (cart_select (Some u) (same_line u i v) (db w)) as [| line rest] eqn:Hsel; cbn.
    + destruct (fails env (S (tick w))); cbn; [left; reflexivity |].
      unfold cart_insert. cbn. rewrite String.eqb_refl. cbn.
      destruct (mem i (map p_id (products (db w)))); cbn; [| left; reflexivity].
      destruct (existsb (same_line u i v) (cart (db w))) eqn:Hex; cbn; [left; reflexivity |].
      destruct (mem _ _); cbn; [left; reflexivity |].
      right. eexists; split; [reflexivity |].
      apply no_same_line_not_in. exact Hex.
    + destruct (fails env (S (tick w))); cbn; [left; reflexivity |].
      left. apply (line_key_with_quantity (Some u) (fun c => (c_id c =? c_id line)%string)).
Qed.

Lemma addToCart_unique env user i v w :
  unique_lines (cart (db w)) ->
  unique_lines (cart (db (snd (addToCart env user i v w)))).
Proof.
  intro Hu. destruct (addToCart_cart env user i v w) as [Hk | [row [Hc Hn]]].
  - unfold unique_lines. rewrite Hk. exact Hu.
  - rewrite Hc. apply unique_lines_snoc; assumption.
Qed.


Lemma filter_existsb_false {A} (f : A -> bool) (l : list A) :
  existsb f l = false -> filter f l = [].
Proof.
  induction l as [| x l IH]; simpl; [reflexivity |].
  intro H. apply orb_false_iff in H as [Hx Hl].
  rewrite Hx. auto.
Qed.

Lemma filter_none {A} (f g : A -> bool) (l : list A) :
  existsb f l = false -> filter (fun c => g c && f c) l = [].
Proof.
  induction l as [| x l IH]; simpl; [reflexivity |].
  intro H. apply orb_false_iff in H as [Hx Hl].
  rewrite Hx, andb_false_r. auto.
Qed.

Lemma addToCart_inserts env u i v w :
  fails env (tick w) = false ->
  fails env (S (tick w)) = false ->
  existsb (same_line u i v) (cart (db w)) = false ->
  mem i (map p_id (products (db w))) = true ->
  mem (gen_random_uuid env (S (tick w)) 0) (map c_id (cart (db w))) = false ->
  addToCart env (Some u) i v w
  = (Ok tt,
     mkWorld (set_cart (cart (db w)
                        ++ [mkCartRow (gen_random_uuid env (S (tick w)) 0) u i 1 v])
                       (db w))
             (S (S (tick w)))
             ((trace w ++ [Request (SelectCartLine u i v)])
              ++ [Request (InsertCartLine u i v 1)])).
Proof.
  intros Hn0 Hn1 Hnone Hfk Hpk.
  unfold addToCart, try_catch, try_catch_finally, bind, remote, answer.
  cbn [db tick trace]. rewrite Hn0.
  unfold cart_select. rewrite (filter_none _ _ _ Hnone).
  cbn [throw_if_error ret db tick trace]. rewrite Hn1.
  unfold cart_insert. cbn [uid_is]. rewrite String.eqb_refl, Hfk, Hnone, Hpk.
  reflexivity.
Qed.

Lemma addToCart_increments env u i v w line rest :
  fails env (tick w) = false ->
  fails env (S (tick w)) = false ->
  cart_select (Some u) (same_line u i v) (db w) = line :: rest ->
  addToCart env (Some u) i v w
  = (Ok tt,
     mkWorld (set_cart
                (map (fun c => if uid_is (Some u) (c_user_id c)
                                  && (c_id c =? c_id line)%string
                               then with_quantity (c_quantity line + 1) c else c)
                     (cart (db w)))
                (db w))
             (S (S (tick w)))
             ((trace w ++ [Request (SelectCartLine u i v)])
              ++ [Request (UpdateCartQuantity (c_id line) (c_quantity line + 1))])).
Proof.
  intros Hn0 Hn1 Hsel.
  unfold addToCart, try_catch, try_catch_finally, bind, remote, answer.
  cbn [db tick trace]. rewrite Hn0, Hsel.
  cbn [throw_if_error ret db tick trace]. rewrite Hn1.
  reflexivity.
Qed.

Lemma map_untouched (u : uuid) (id : uuid) (q : Z) (l : list CartRow) :
  mem id (map c_id l) = false ->
  map (fun c => if uid_is (Some u) (c_user_id c) && (c_id c =? id)%string
                then with_quantity q c else c) l = l.
Proof.
  induction l as [| x l IH]; [reflexivity |].
  cbn [map mem existsb]. intro H. apply orb_false_iff in H as [Hx Hl].
  rewrite Hx, andb_false_r, IH by exact Hl. reflexivity.
Qed.

(** C7: for every owner u, item i and variant v, two successive adds from a
    cart without a (u,i,v) line leave exactly one line for (u,i,v), of
    quantity 2: the second add increments the line the first one created, the
    cart grows by a single line, and (owner, item, variant) keeps identifying
    a cart line.  (No request is lost, the item exists, and the generated key
    is new.) *)
Theorem add_twice (env : Env) (u i : uuid) (v : string) (w : World) :
  (forall n, fails env n = false) ->
  existsb (same_line u i v) (cart (db w)) = false ->
  mem i (map p_id (products (db w))) = true ->
  mem (gen_random_uuid env (S (tick w)) 0) (map c_id (cart (db w))) = false ->
  let w' := snd ((addToCart env (Some u) i v ;; addToCart env (Some u) i v)%handler w) in
  (exists id, filter (same_line u i v) (cart (db w')) = [mkCartRow id u i 2 v])
  /\ List.length (cart (db w')) = S (List.length (cart (db w)))
  /\ (unique_lines (cart (db w)) -> unique_lines (cart (db w'))).
Proof.
  intros Hnet Hnone Hfk Hpk w'.
  set (new := mkCartRow (gen_random_uuid env (S (tick w)) 0) u i 1 v).
  assert (Hsel : forall s, cart s = cart (db w) ++ [new] ->
            cart_select (Some u) (same_line u i v) s = [new]).
  { intros s Hs. unfold cart_select. rewrite Hs, filter_app.
    rewrite (filter_none _ _ _ Hnone). simpl.
    unfold same_line, new; simpl. rewrite !String.eqb_refl. reflexivity. }
  assert (Hw' : cart (db w')
                = cart (db w) ++ [mkCartRow (c_id new) u i 2 v]).
  { subst w'. unfold bind at 1.
    rewrite (addToCart_inserts env u i v w) by auto.
    erewrite addToCart_increments; [| apply Hnet | apply Hnet | apply Hsel; reflexivity].
    cbn [snd db cart set_cart]. rewrite map_app.
    rewrite map_untouched by exact Hpk.
    simpl. rewrite !String.eqb_refl. reflexivity. }
  split; [| split].
  - exists (c_id new). rewrite Hw', filter_app.
    rewrite (filter_existsb_false _ _ Hnone).
    simpl. unfold same_line; simpl. rewrite !String.eqb_refl. reflexivity.
  - rewrite Hw'. rewrite length_app. simpl. lia.
  - intro Hu. subst w'. unfold bind at 1.
    destruct (addToCart env (Some u) i v w) as [[[] | e] w1] eqn:H1.
    + apply addToCart_unique.
      replace w1 with (snd (addToCart env (Some u) i v w)) by (rewrite H1; reflexivity).
      apply addToCart_unique. exact Hu.
    + replace w1 with (snd (addToCart env (Some u) i v w)) by (rewrite H1; reflexivity).
      apply addToCart_unique. exact Hu.
Qed.

Lemma add_twice_witness :
  let w' := snd ((addToCart Sample.reliable (Some Sample.alice) "p-nike" "9" ;;
                  addToCart Sample.reliable (Some Sample.alice) "p-nike" "9")%handler
                   (start Sample.shop)) in
  (exists id, filter (same_line Sample.alice "p-nike" "9") (cart (db w'))
              = [mkCartRow id Sample.alice "p-nike" 2 "9"])
  /\ List.length (cart (db w')) = S (List.length (cart (db (start Sample.shop))))
  /\ (unique_lines (cart (db (start Sample.shop))) -> unique_lines (cart (db w'))).
Proof.
  apply (add_twice Sample.reliable Sample.alice "p-nike" "9"
           (start Sample.shop));
    [intro n; reflexivity | reflexivity | reflexivity | reflexivity].
Defined.

(* ------------------------------------------------------------------ *)
(** ** Checkout *)

(** *** Steps that cannot throw *)

Lemma updateStock_returns env user item : total_ok (updateStock env user item).
Proof.
  intro w. unfold updateStock, bind, remote.
  destruct (answer env (tick w) _ (db w)) as [[[] s'] | e]; eexists; reflexivity.
Qed.

Lemma for_of_returns {A} (l : list A) (body : A -> M unit) :
  (forall x, total_ok (body x)) -> total_ok (for_of l body).
Proof.
  intros Hb. induction l as [| x l IH]; intro w; simpl.
  - exists tt; reflexivity.
  - unfold bind. destruct (Hb x w) as [[] Hx].
    destruct (body x w) as [r w1]; simpl in Hx; subst r. apply IH.
Qed.

Lemma run_returns (m : M unit) (w : World) :
  total_ok m -> m w = (Ok tt, snd (m w)).
Proof.
  intro H. destruct (H w) as [[] Ha].
  destruct (m w) as [r w1]; simpl in *; subst r; reflexivity.
Qed.

Lemma updateStock_tick env user item w :
  tick (snd (updateStock env user item w)) = S (tick w).
Proof.
  unfold updateStock, bind, remote.
  destruct (answer env (tick w) _ (db w)) as [[[] s'] | e]; reflexivity.
Qed.

Lemma for_of_updateStock_tick env user cartItems w :
  tick (snd (for_of cartItems (updateStock env user) w))
  = (tick w + List.length cartItems)%nat.
Proof.
  revert w. induction cartItems as [| item items IH]; intro w; simpl.
  - lia.
  - unfold bind. rewrite (run_returns _ w (updateStock_returns env user item)).
    rewrite IH, updateStock_tick. lia.
Qed.

(** *** Step 4 throws when its request is lost *)

Lemma own_lines_deleted u l :
  filter (fun c => negb (uid_is (Some u) (c_user_id c) && (c_user_id c =? u)%string)) l
  = filter (fun c => negb (c_user_id c =? u)%string) l.
Proof.
  apply filter_ext. intro c. cbn [uid_is]. rewrite (String.eqb_sym u).
  destruct (c_user_id c =? u)%string; reflexivity.
Qed.

Lemma clearCart_run env u w :
  clearCart env (Some u) w
  = if fails env (tick w)
    then (Throw RemoteFailure,
          mkWorld (db w) (S (tick w)) (trace w ++ [Request (DeleteCartOf u)]))
    else (Ok tt,
          mkWorld (set_cart (others_cart u (db w)) (db w)) (S (tick w))
                  (trace w ++ [Request (DeleteCartOf u)])).
Proof.
  unfold clearCart, bind, remote, answer, cart_delete.
  destruct (fails env (tick w)); [reflexivity |].
  unfold others_cart. rewrite <- (own_lines_deleted u). reflexivity.
Qed.

(** The run of a checkout, step by step. *)
Lemma handlePlaceOrder_run env u cartItems w :
  cartItems <> [] ->
  let t1 := trace w ++ [SetPlacing true;
                        Request (InsertOrder u (total cartItems) "pending")] in
  handlePlaceOrder env (Some u) cartItems w
  = match answer env (tick w) (createOrder env u cartItems) (db w) with
    | Err e => (Ok tt, mkWorld (db w) (S (tick w)) (t1 ++ failed_with e))
    | Data (order, s1) =>
        let t2 := t1 ++ [Request (InsertOrderItems
                                    (orderItems_of (o_id order) cartItems))] in
        match answer env (S (tick w)) (createOrderItems env u order cartItems) s1 with
        | Err e => (Ok tt, mkWorld s1 (S (S (tick w))) (t2 ++ failed_with e))
        | Data (_, s2) =>
            let w4 := finish env u cartItems (mkWorld s2 (S (S (tick w))) t2) in
            (Ok tt, mkWorld (db w4) (tick w4)
                      (trace w4 ++ if fails env (S (S (tick w)) + List.length cartItems)
                                   then failed_with RemoteFailure
                                   else [placed; Navigate "/orders"; SetPlacing false]))
        end
    end.
Proof.
  intros Hne t1. destruct cartItems as [| item items]; [congruence |].
  assert (Ht1 : (trace w ++ [SetPlacing true])
                ++ [Request (InsertOrder u (total (item :: items)) "pending")] = t1)
    by (unfold t1; rewrite <- app_assoc; reflexivity).
  unfold handlePlaceOrder. cbn [List.length Nat.eqb].
  unfold try_catch_finally. unfold bind at 1. cbn [emit].
  unfold bind at 1. unfold bind at 1. unfold remote at 1. cbn [db tick trace].
  fold (createOrder env u (item :: items)). rewrite Ht1.
  destruct (answer env (tick w) (createOrder env u (item :: items)) (db w))
    as [[order s1] | e].
  2:{ cbn. unfold emit, failed_with. cbn. rewrite <- !app_assoc. reflexivity. }
  cbn [throw_if_error ret].
  unfold bind at 1. unfold bind at 1. unfold bind at 1. unfold remote at 1. cbn [db tick trace].
  fold (createOrderItems env u order (item :: items)).
  destruct (answer env (S (tick w)) (createOrderItems env u order (item :: items)) s1)
    as [[[] s2] | e].
  2:{ cbn. unfold emit, failed_with. cbn. rewrite <- !app_assoc. reflexivity. }
  cbn [throw_if_error ret].
  rewrite (run_returns (for_of (item :: items) (updateStock env (Some u))))
    by (apply for_of_returns; intro; apply updateStock_returns).
  unfold bind at 1. unfold finish.
  match goal with |- context [for_of (item :: items) _ ?w2] =>
    pose proof (for_of_updateStock_tick env (Some u) (item :: items) w2) as Htick;
    set (w3 := snd (for_of (item :: items) (updateStock env (Some u)) w2)) in *
  end.
  cbn [tick] in Htick. rewrite clearCart_run, Htick. cbn [List.length].
  destruct (fails env (S (S (tick w)) + S (List.length items))).
  - cbn [snd db tick trace]. unfold bind, emit, failed_with. cbn [db tick trace].
    rewrite <- !app_assoc. reflexivity.
  - cbn [snd db tick trace]. unfold bind, emit, placed. cbn [db tick trace].
    rewrite <- !app_assoc. reflexivity.
Qed.

(** *** What each step leaves alone *)

Section OnStore.

Variable P : Store -> Store -> Prop.
Hypothesis P_refl : forall s, P s s.
Hypothesis P_trans : forall a b c, P a b -> P b c -> P a c.

Lemma on_store_refl w : on_store P w w.
Proof using P_refl. apply P_refl. Qed.

Lemma on_store_trans a b c : on_store P a b -> on_store P b c -> on_store P a c.
Proof using P_trans. apply P_trans. Qed.

Lemma on_store_emit ev : keeps (on_store P) (emit ev).
Proof using P_refl. intro w; apply P_refl. Qed.

Lemma on_store_remote {A} env r (op : nat -> Store -> Response (A * Store)) :
  (forall n s a s', op n s = Data (a, s') -> P s s') ->
  keeps (on_store P) (remote env r op).
Proof using P_refl P_trans.
  intro Hop. apply (keeps_remote _ on_store_refl on_store_trans).
  - intro w; apply P_refl.
  - intros w a s' Ha. unfold answer in Ha.
    destruct (fails env (tick w)); [discriminate |].
    exact (Hop _ _ _ _ Ha).
Qed.

End OnStore.

Lemma same_ledger_refl s : same_ledger s s.
Proof. repeat split. Qed.

Lemma same_ledger_trans a b c : same_ledger a b -> same_ledger b c -> same_ledger a c.
Proof. unfold same_ledger; intuition congruence. Qed.

Lemma same_catalog_refl s : same_catalog s s.
Proof. repeat split. Qed.

Lemma same_catalog_trans a b c :
  same_catalog a b -> same_catalog b c -> same_catalog a c.
Proof. unfold same_catalog; intuition congruence. Qed.

Lemma keeps_nonnegative_refl s : keeps_nonnegative s s.
Proof. intro H; exact H. Qed.

Lemma keeps_nonnegative_trans a b c :
  keeps_nonnegative a b -> keeps_nonnegative b c -> keeps_nonnegative a c.
Proof. unfold keeps_nonnegative; auto. Qed.



Lemma products_update_ledger caller pid patch s a s' :
  products_update caller pid patch s = Data (a, s') -> same_ledger s s'.
Proof.
  unfold products_update. destruct (is_admin s caller); intro H; inversion H;
    repeat split.
Qed.

Lemma cart_delete_ledger caller pred s a s' :
  cart_delete caller pred s = Data (a, s') -> same_ledger s s'.
Proof. unfold cart_delete; intro H; inversion H; repeat split. Qed.

Lemma cart_delete_catalog caller pred s a s' :
  cart_delete caller pred s = Data (a, s') -> same_catalog s s'.
Proof. unfold cart_delete; intro H; inversion H; repeat split. Qed.

Lemma orders_insert_catalog caller id ts u amount status s a s' :
  orders_insert caller id ts u amount status s = Data (a, s') -> same_catalog s s'.
Proof.
  unfold orders_insert.
  destruct (negb (fits_decimal_10_2 amount)); [discriminate |].
  destruct (negb (uid_is caller u)); [discriminate |].
  destruct (mem id (map o_id (orders s))); [discriminate |].
  intro H; inversion H; repeat split.
Qed.

Lemma order_items_insert_catalog caller gen rows s a s' :
  order_items_insert caller gen rows s = Data (a, s') -> same_catalog s s'.
Proof.
  unfold order_items_insert.
  repeat match goal with
         | |- context [if negb ?b then _ else _] => destruct (negb b); [discriminate |]
         end.
  intro H; inversion H; repeat split.
Qed.

Lemma stock_update_in pid v l p :
  In p (map (fun p => if (p_id p =? pid)%string then with_stock_quantity v p else p) l) ->
  (In p l /\ p_id p <> pid) \/ (p_id p = pid /\ p_stock_quantity p = v).
Proof.
  intro H. apply in_map_iff in H as [q [Hq Hin]].
  destruct (p_id q =? pid)%string eqn:E.
  - right. subst p. apply String.eqb_eq in E. split; [exact E | reflexivity].
  - left. subst p. apply String.eqb_neq in E. split; assumption.
Qed.

Lemma products_update_nonnegative caller pid v s a s' :
  0 <= v ->
  products_update caller pid (with_stock_quantity v) s = Data (a, s') ->
  keeps_nonnegative s s'.
Proof.
  unfold products_update. intros Hv H Hs.
  destruct (is_admin s caller); inversion H; subst; [| exact Hs].
  intros p Hp. apply stock_update_in in Hp as [[Hp _] | [_ ->]]; auto.
Qed.


Lemma same_catalog_nonnegative s s' : same_catalog s s' -> keeps_nonnegative s s'.
Proof. intros [Hp _] H p Hin. rewrite Hp in Hin. auto. Qed.


Ltac on_store_steps P_refl P_trans leaf :=
  step_keeps (on_store_refl _ P_refl) (on_store_trans _ P_trans)
    ltac:(first [ apply (on_store_emit _ P_refl)
                | apply (on_store_remote _ P_refl P_trans); leaf
                | leaf ]).

Lemma updateStock_ledger env user item :
  keeps (on_store same_ledger) (updateStock env user item).
Proof.
  unfold updateStock.
  on_store_steps same_ledger_refl same_ledger_trans
    ltac:(intros; eapply products_update_ledger; eassumption).
Qed.

Lemma clearCart_ledger env user : keeps (on_store same_ledger) (clearCart env user).
Proof.
  unfold clearCart.
  on_store_steps same_ledger_refl same_ledger_trans
    ltac:(intros; eapply cart_delete_ledger; eassumption).
Qed.

Lemma clearCart_catalog env user : keeps (on_store same_catalog) (clearCart env user).
Proof.
  unfold clearCart.
  on_store_steps same_catalog_refl same_catalog_trans
    ltac:(intros; eapply cart_delete_catalog; eassumption).
Qed.

Lemma finish_ledger env u cartItems w2 :
  same_ledger (db w2) (db (finish env u cartItems w2)).
Proof.
  unfold finish.
  pose proof (keeps_for_of _ (on_store_refl _ same_ledger_refl)
                (on_store_trans _ same_ledger_trans) cartItems _
                (updateStock_ledger env (Some u)) w2) as Hloop.
  pose proof (clearCart_ledger env (Some u)
                (snd (for_of cartItems (updateStock env (Some u)) w2))) as Hclear.
  exact (same_ledger_trans _ _ _ Hloop Hclear).
Qed.

Lemma updateStock_nonnegative env user item :
  ci_quantity item <= cp_stock_quantity (ci_product item) ->
  keeps (on_store keeps_nonnegative) (updateStock env user item).
Proof.
  intro Hq. unfold updateStock.
  on_store_steps keeps_nonnegative_refl keeps_nonnegative_trans
    ltac:(intros; eapply products_update_nonnegative; [| eassumption]; lia).
Qed.

(** C3, as stated, fails: the stock column carries no constraint and step 3
    writes cached stock minus quantity unguarded.  From a store whose stocks
    are all non-negative, the checkout of a cart line whose quantity exceeds
    the stock (21 of 20) leaves a negative stock. *)
Lemma negative_stock_counterexample :
  let s := Sample.shop_short in
  let w' := snd (handlePlaceOrder Sample.reliable (Some Sample.root)
                   (loadCart Sample.root s) (start s)) in
  forallb (fun p => 0 <=? p_stock_quantity p) (products s) = true
  /\ In placed (trace w')
  /\ map (fun p => (p_id p, p_stock_quantity p)) (products (db w'))
     = [("p-converse", 75); ("p-nike", 50); ("p-nb", -1)].
Proof.
  repeat split. vm_compute. do 5 right. left. reflexivity.
Qed.

(** C3, amended: a checkout keeps every stock at or above zero provided each
    cart line's quantity does not exceed the stock cached in the cart item
    (which only the quantity buttons of the page enforce). *)
Theorem checkout_keeps_stock_nonnegative (env : Env) (user : option uuid)
    (cartItems : list CartItem) (w : World) :
  stocks_nonnegative (db w) ->
  (forall item, In item cartItems ->
                ci_quantity item <= cp_stock_quantity (ci_product item)) ->
  stocks_nonnegative (db (snd (handlePlaceOrder env user cartItems w))).
Proof.
  intros Hs Hq. revert Hs.
  change (on_store keeps_nonnegative w (snd (handlePlaceOrder env user cartItems w))).
  revert w. change (keeps (on_store keeps_nonnegative) (handlePlaceOrder env user cartItems)).
  unfold handlePlaceOrder.
  destruct user as [u |]; [| intros w Hs; exact Hs].
  destruct (List.length cartItems =? 0)%nat; [intros w Hs; exact Hs |].
  on_store_steps keeps_nonnegative_refl keeps_nonnegative_trans
    ltac:(first
      [ intros; eapply same_catalog_nonnegative, orders_insert_catalog; eassumption
      | intros; eapply same_catalog_nonnegative, order_items_insert_catalog; eassumption
      | apply (keeps_for_of_in _ (on_store_refl _ keeps_nonnegative_refl)
                 (on_store_trans _ keeps_nonnegative_trans));
        intros item Hitem; apply updateStock_nonnegative; auto
      | match goal with
        | |- keeps _ (clearCart _ _) =>
            intro w; eapply same_catalog_nonnegative, clearCart_catalog
        end ]).
Qed.

Lemma checkout_keeps_stock_nonnegative_witness :
  stocks_nonnegative
    (db (snd (handlePlaceOrder Sample.reliable (Some Sample.root)
                (loadCart Sample.root Sample.shop_two_sizes)
                (start Sample.shop_two_sizes)))).
Proof.
  apply (checkout_keeps_stock_nonnegative Sample.reliable (Some Sample.root)
           (loadCart Sample.root Sample.shop_two_sizes) (start Sample.shop_two_sizes)).
  - intros p Hp. simpl in Hp.
    repeat destruct Hp as [Hp | Hp]; try (subst p; simpl; lia); destruct Hp.
  - intros item Hitem. vm_compute in Hitem.
    repeat destruct Hitem as [Hitem | Hitem]; try (subst item; simpl; lia);
      destruct Hitem.
Defined.

(** *** Steps 3 and 4 *)

Lemma not_placed_when_failed t e :
  ~ In placed t -> ~ In placed (t ++ failed_with e).
Proof.
  intros Ht H. apply in_app_or in H as [H | H]; [exact (Ht H) |].
  simpl in H. unfold placed, not_placed in H.
  repeat destruct H as [H | H]; try discriminate; exact H.
Qed.

Lemma adds_refl ok w : adds ok w w.
Proof. exists []. split; [symmetry; apply app_nil_r | reflexivity]. Qed.

Lemma adds_trans ok a b c : adds ok a b -> adds ok b c -> adds ok a c.
Proof.
  intros [r1 [H1 F1]] [r2 [H2 F2]]. exists (r1 ++ r2). split.
  - rewrite H2, H1. symmetry; apply app_assoc.
  - rewrite forallb_app, F1, F2. reflexivity.
Qed.

Lemma adds_emit ok ev : ok ev = true -> keeps (adds ok) (emit ev).
Proof.
  intros Hev w. exists [ev]. split; [reflexivity |].
  simpl. rewrite Hev. reflexivity.
Qed.

Lemma adds_remote {A} ok env r (op : nat -> Store -> Response (A * Store)) :
  ok (Request r) = true -> keeps (adds ok) (remote env r op).
Proof.
  intro Hr. apply (keeps_remote _ (adds_refl ok) (adds_trans ok));
    intros; exists [Request r]; (split; [reflexivity |]); simpl; rewrite Hr; reflexivity.
Qed.

Ltac adds_steps ok :=
  step_keeps (adds_refl ok) (adds_trans ok)
    ltac:(first [ apply adds_remote; reflexivity | apply adds_emit; reflexivity ]).

Lemma background_in rest ev :
  forallb background rest = true -> In ev rest -> background ev = true.
Proof. intros H Hin. rewrite forallb_forall in H. auto. Qed.

Lemma loop_adds env user cartItems :
  keeps (adds background) (for_of cartItems (updateStock env user)).
Proof. unfold updateStock; adds_steps background. Qed.

Lemma finish_adds env u cartItems w2 : adds background w2 (finish env u cartItems w2).
Proof.
  unfold finish.
  assert (Hclear : keeps (adds background) (clearCart env (Some u)))
    by (unfold clearCart; adds_steps background).
  exact (adds_trans _ _ _ _ (loop_adds env (Some u) cartItems w2) (Hclear _)).
Qed.

(** Steps 3 and 4 notify nothing: what is neither a request nor a console
    message is in the trace after them only if it was there before. *)
Lemma finish_without env u cartItems w2 ev :
  background ev = false -> ~ In ev (trace w2) ->
  ~ In ev (trace (finish env u cartItems w2)).
Proof.
  intros Hev Hw2 Hin.
  destruct (finish_adds env u cartItems w2) as [rest [Hrest Hok]].
  rewrite Hrest in Hin. apply in_app_or in Hin as [Hin | Hin]; [exact (Hw2 Hin) |].
  apply (background_in _ _ Hok) in Hin. congruence.
Qed.

(** The world after step 4, from the world after step 3. *)
Lemma finish_world env u cartItems w2 :
  let w3 := snd (for_of cartItems (updateStock env (Some u)) w2) in
  finish env u cartItems w2
  = mkWorld (if fails env (tick w2 + List.length cartItems) then db w3
             else set_cart (others_cart u (db w3)) (db w3))
            (S (tick w2 + List.length cartItems))
            (trace w3 ++ [Request (DeleteCartOf u)]).
Proof.
  intro w3. unfold finish. fold w3. rewrite clearCart_run.
  assert (Htick : tick w3 = (tick w2 + List.length cartItems)%nat)
    by apply for_of_updateStock_tick.
  rewrite Htick.
  destruct (fails env (tick w2 + List.length cartItems)); reflexivity.
Qed.

Lemma stock_writes_app t1 t2 :
  stock_writes (t1 ++ t2) = stock_writes t1 ++ stock_writes t2.
Proof. apply flat_map_app. Qed.

Lemma updateStock_writes env user item w :
  stock_writes (trace (snd (updateStock env user item w)))
  = stock_writes (trace w) ++ [stock_write item].
Proof.
  unfold updateStock, bind, remote.
  destruct (answer env (tick w) _ (db w)) as [[[] s'] | e]; cbn;
    rewrite ?stock_writes_app; cbn; rewrite ?app_nil_r; reflexivity.
Qed.

Lemma for_of_updateStock_writes env user cartItems w :
  stock_writes (trace (snd (for_of cartItems (updateStock env user) w)))
  = stock_writes (trace w) ++ map stock_write cartItems.
Proof.
  revert w. induction cartItems as [| item items IH]; intro w; simpl.
  - rewrite app_nil_r; reflexivity.
  - unfold bind. rewrite (run_returns _ w (updateStock_returns env user item)).
    rewrite IH, updateStock_writes, <- app_assoc. reflexivity.
Qed.

Lemma finish_writes env u cartItems w2 :
  stock_writes (trace (finish env u cartItems w2))
  = stock_writes (trace w2) ++ map stock_write cartItems.
Proof.
  rewrite finish_world. cbn [trace].
  rewrite stock_writes_app, for_of_updateStock_writes. cbn.
  rewrite app_nil_r. reflexivity.
Qed.

(** A run that notifies success went through all four steps. *)
Lemma placed_run env u cartItems s :
  let w' := snd (handlePlaceOrder env (Some u) cartItems (start s)) in
  In placed (trace w') ->
  exists order s1 a s2,
    cartItems <> []
    /\ answer env 0 (createOrder env u cartItems) s = Data (order, s1)
    /\ answer env 1 (createOrderItems env u order cartItems) s1 = Data (a, s2)
    /\ fails env (2 + List.length cartItems) = false
    /\ let w4 := finish env u cartItems
                   (mkWorld s2 2
                      [SetPlacing true;
                       Request (InsertOrder u (total cartItems) "pending");
                       Request (InsertOrderItems
                                  (orderItems_of (o_id order) cartItems))]) in
       w' = mkWorld (db w4) (tick w4)
                    (trace w4 ++ [placed; Navigate "/orders"; SetPlacing false]).
Proof.
  intros w' Hplaced.
  assert (Hne : cartItems <> []).
  { intros ->. subst w'. simpl in Hplaced. exact Hplaced. }
  subst w'. rewrite (handlePlaceOrder_run env u cartItems (start s) Hne) in *.
  cbn [start db tick trace app] in *.
  destruct (answer env 0 (createOrder env u cartItems) s) as [[order s1] | e] eqn:H1.
  2:{ exfalso. revert Hplaced. cbn [snd trace].
      apply (not_placed_when_failed [_; _]).
      unfold placed. intros [H | [H | []]]; discriminate. }
  destruct (answer env 1 (createOrderItems env u order cartItems) s1)
    as [[a s2] | e] eqn:H2.
  2:{ exfalso. revert Hplaced. cbn [snd trace].
      apply (not_placed_when_failed [_; _; _]).
      unfold placed. intros [H | [H | [H | []]]]; discriminate. }
  destruct (fails env (2 + List.length cartItems)) eqn:H4.
  { exfalso. revert Hplaced. cbn [snd trace].
    apply not_placed_when_failed. apply finish_without; [reflexivity |].
    unfold placed. intros [H | [H | [H | []]]]; discriminate. }
  exists order, s1, a, s2. repeat split; try assumption.
Qed.

(* ------------------------------------------------------------------ *)
(** ** The order total *)

Lemma stamp_lines_of gen id cartItems i :
  filter (fun r => (oi_order_id r =? id)%string)
         (stamp gen i (orderItems_of id cartItems))
  = stamp gen i (orderItems_of id cartItems).
Proof.
  revert i. induction cartItems as [| item items IH]; intro i; simpl.
  - reflexivity.
  - rewrite String.eqb_refl, IH. reflexivity.
Qed.

Lemma stamp_amount gen id cartItems i acc :
  fold_left (fun sum r => sum + oi_quantity r * oi_price r)
            (stamp gen i (orderItems_of id cartItems)) acc
  = fold_left (fun sum item => sum + cp_price (ci_product item) * ci_quantity item)
              cartItems acc.
Proof.
  revert i acc. induction cartItems as [| item items IH]; intros i acc; simpl.
  - reflexivity.
  - rewrite IH. f_equal. lia.
Qed.

Lemma stamp_columns gen id cartItems i :
  map line_columns (stamp gen i (orderItems_of id cartItems))
  = map cart_columns cartItems.
Proof.
  revert i. induction cartItems as [| item items IH]; intro i; simpl.
  - reflexivity.
  - rewrite IH. reflexivity.
Qed.

Lemma no_lines_of_new_order s id :
  lines_reference_orders s ->
  mem id (map o_id (orders s)) = false ->
  lines_of s id = [].
Proof.
  intros Href Hnew. unfold lines_of.
  apply filter_existsb_false. 
  destruct (existsb _ (order_items s)) eqn:E; [| reflexivity].
  apply existsb_exists in E as [r [Hr Hid]].
  apply String.eqb_eq in Hid. specialize (Href r Hr).
  rewrite Hid in Href. congruence.
Qed.

Lemma createOrder_data env u cartItems n s order s1 :
  answer env n (createOrder env u cartItems) s = Data (order, s1) ->
  order = mkOrderRow (gen_random_uuid env n 0) u (total cartItems) "pending" (now env n)
  /\ s1 = set_orders (orders s ++ [order]) s
  /\ mem (o_id order) (map o_id (orders s)) = false.
Proof.
  unfold answer, createOrder, orders_insert.
  destruct (fails env n); [discriminate |].
  destruct (negb (fits_decimal_10_2 _)); [discriminate |].
  destruct (negb (uid_is _ _)); [discriminate |].
  destruct (mem _ _) eqn:E; [discriminate |].
  intro H; inversion H; subst. auto.
Qed.

Lemma createOrderItems_data env u order cartItems n s1 a s2 :
  answer env n (createOrderItems env u order cartItems) s1 = Data (a, s2) ->
  s2 = set_order_items
         (order_items s1
          ++ stamp (fun i => gen_random_uuid env n i) 0
                   (orderItems_of (o_id order) cartItems)) s1.
Proof.
  unfold answer, createOrderItems, order_items_insert.
  destruct (fails env n); [discriminate |].
  repeat match goal with
         | |- context [if negb ?b then _ else _] => destruct (negb b); [discriminate |]
         end.
  intro H; inversion H; reflexivity.
Qed.

(** C1, as stated, fails: the price of an order line is the one the cart
    item carries, fetched when the cart was loaded, not the item's price when
    checkout runs.  Alice loads her cart (one pair of Nike at 129.99); the
    price goes up to 139.99; she checks out.  The order line and the total
    say 129.99. *)
Lemma stale_price_counterexample :
  let loaded := Sample.shop_with_cart in
  let cartItems := loadCart Sample.alice loaded in
  let s := repriced "p-nike" 13999 loaded in
  let w' := snd (handlePlaceOrder Sample.reliable (Some Sample.alice) cartItems
                   (start s)) in
  In placed (trace w')
  /\ map (fun p => (p_id p, p_price p)) (products s)
     = [("p-converse", 5999); ("p-nike", 13999); ("p-nb", 19999)]
  /\ products (db w') = products s
  /\ map (fun r => (oi_product_id r, oi_quantity r, oi_price r)) (order_items (db w'))
     = [("p-nike", 1, 12999)]
  /\ map o_total_amount (orders (db w')) = [12999].
Proof.
  repeat split. vm_compute. do 5 right. left. reflexivity.
Qed.

Lemma line_of_cart_item gen id cartItems i r :
  In r (stamp gen i (orderItems_of id cartItems)) ->
  exists item, In item cartItems /\ cart_columns item = line_columns r.
Proof.
  revert i. induction cartItems as [| item items IH]; intros i H; simpl in H.
  - destruct H.
  - destruct H as [<- | H].
    + exists item. split; [left; reflexivity | reflexivity].
    + destruct (IH _ H) as [x [Hx Hcols]]. exists x. split; [right; exact Hx | exact Hcols].
Qed.

(** C1, amended: a successful placeOrder (which requires a cart with at least
    one line) creates an order whose [total_amount] equals the sum of
    [quantity * price] over the order lines inserted for it, and a later
    change of a product's price leaves the order, its lines and the equality
    as they are.  The price of each line is the price the cart item carries,
    fetched when the cart was loaded; it is the item's price when checkout
    runs provided the cart's prices agree with the store's. *)
Theorem order_total_matches_lines (env : Env) (u : uuid)
    (cartItems : list CartItem) (s : Store) :
  lines_reference_orders s ->
  let w' := snd (handlePlaceOrder env (Some u) cartItems (start s)) in
  In placed (trace w') ->
  exists order,
    In order (orders (db w'))
    /\ ~ In order (orders s)
    /\ o_user_id order = u
    /\ o_status order = "pending"
    /\ map line_columns (lines_of (db w') (o_id order)) = map cart_columns cartItems
    /\ lines_amount (lines_of (db w') (o_id order)) = o_total_amount order
    /\ (forall caller pid v a s'',
          products_update caller pid (with_price v) (db w') = Data (a, s'') ->
          In order (orders s'')
          /\ lines_amount (lines_of s'' (o_id order)) = o_total_amount order)
    /\ ((forall item p, In item cartItems -> In p (products s) ->
                        p_id p = ci_product_id item ->
                        cp_price (ci_product item) = p_price p) ->
        forall r p, In r (lines_of (db w') (o_id order)) -> In p (products s) ->
                    p_id p = oi_product_id r -> oi_price r = p_price p).
Proof.
  intros Href w' Hplaced.
  destruct (placed_run env u cartItems s Hplaced)
    as [order [s1 [a [s2 [Hne [H1 [H2 [H4 Hrun]]]]]]]].
  cbv zeta in Hrun. subst w'. rewrite Hrun. clear Hrun Hplaced. cbn [db].
  match goal with |- context [finish env u cartItems ?w2] =>
    destruct (finish_ledger env u cartItems w2) as [Ho [Hi _]];
      set (w4 := finish env u cartItems w2) in *
  end.
  cbn [db] in Ho, Hi.
  apply createOrder_data in H1 as [Horder [Hs1 Hnew]].
  apply createOrderItems_data in H2.
  assert (Horders : orders (db w4) = orders s ++ [order]).
  { rewrite Ho, H2, Hs1. reflexivity. }
  assert (Hlines : lines_of (db w4) (o_id order)
                   = stamp (fun i => gen_random_uuid env 1 i) 0
                           (orderItems_of (o_id order) cartItems)).
  { unfold lines_of. rewrite Hi, H2. cbn [order_items set_order_items].
    rewrite filter_app, stamp_lines_of.
    rewrite Hs1. cbn [order_items set_orders].
    fold (lines_of s (o_id order)).
    rewrite (no_lines_of_new_order s (o_id order) Href Hnew). reflexivity. }
  assert (Hamount : lines_amount (lines_of (db w4) (o_id order)) = o_total_amount order).
  { rewrite Hlines. unfold lines_amount. rewrite stamp_amount.
    rewrite Horder. reflexivity. }
  exists order.
  split; [| split; [| split; [| split; [| split; [| split; [| split]]]]]].
  - rewrite Horders. apply in_or_app; right; left; reflexivity.
  - intro Hin. apply (in_map o_id) in Hin.
    assert (mem (o_id order) (map o_id (orders s)) = true).
    { apply existsb_exists. exists (o_id order). split; [exact Hin | apply String.eqb_refl]. }
    congruence.
  - rewrite Horder; reflexivity.
  - rewrite Horder; reflexivity.
  - rewrite Hlines. apply stamp_columns.
  - exact Hamount.
  - intros caller pid v a' s'' H.
    apply products_update_ledger in H as [Ho' [Hi' _]]. split.
    + rewrite Ho', Horders. apply in_or_app; right; left; reflexivity.
    + unfold lines_of in *. rewrite Hi'. exact Hamount.
  - intros Hsync r p Hr Hp Hid. rewrite Hlines in Hr.
    apply line_of_cart_item in Hr as [item [Hitem Hcols]].
    unfold cart_columns, line_columns in Hcols.
    injection Hcols as Hpid Hq Hprice Hsize.
    rewrite <- Hprice. apply (Hsync item p Hitem Hp). congruence.
Qed.

Lemma order_total_matches_lines_witness :
  let w' := snd (handlePlaceOrder Sample.reliable (Some Sample.alice) [one_nike]
                   (start Sample.shop_with_cart)) in
  exists order,
    In order (orders (db w'))
    /\ lines_amount (lines_of (db w') (o_id order)) = o_total_amount order
    /\ map oi_price (lines_of (db w') (o_id order)) = [12999]
    /\ forall r, In r (lines_of (db w') (o_id order)) ->
                 oi_product_id r = "p-nike" /\ oi_price r = p_price Sample.nike.
Proof.
  destruct (order_total_matches_lines Sample.reliable Sample.alice [one_nike]
              Sample.shop_with_cart)
    as [order [Hin [_ [_ [_ [Hcols [Hamount [_ Hsync]]]]]]]].
  - intros r [].
  - vm_compute. do 5 right. left. reflexivity.
  - exists order. split; [exact Hin | split; [exact Hamount |]].
    assert (Hprices : map oi_price (lines_of
                        (db (snd (handlePlaceOrder Sample.reliable (Some Sample.alice)
                                    [one_nike] (start Sample.shop_with_cart))))
                        (o_id order)) = [12999]).
    { apply (f_equal (map (fun c => snd (fst c)))) in Hcols.
      rewrite !map_map in Hcols. exact Hcols. }
    split; [exact Hprices |].
    intros r Hr.
    assert (Hid : oi_product_id r = "p-nike").
    { apply (in_map line_columns) in Hr. rewrite Hcols in Hr.
      destruct Hr as [Hr | []]. unfold line_columns, cart_columns in Hr.
      injection Hr as Hpid _ _ _. symmetry. exact Hpid. }
    split; [exact Hid |].
    apply (Hsync); [| exact Hr | right; left; reflexivity | symmetry; exact Hid].
    intros item p [<- | []] Hp Hpid. simpl in Hp.
    destruct Hp as [<- | [<- | [<- | []]]]; solve [reflexivity | discriminate Hpid].
Defined.

(* ------------------------------------------------------------------ *)
(** ** Failure of a checkout step *)

Lemma only_products_refl s : only_products s s.
Proof. repeat split. Qed.

Lemma only_products_trans a b c :
  only_products a b -> only_products b c -> only_products a c.
Proof.
  intros [Hc1 Hl1] [Hc2 Hl2]. split; [congruence |].
  exact (same_ledger_trans _ _ _ Hl1 Hl2).
Qed.

Lemma products_update_only caller pid patch s a s' :
  products_update caller pid patch s = Data (a, s') -> only_products s s'.
Proof.
  unfold products_update. destruct (is_admin s caller); intro H; inversion H;
    repeat split.
Qed.

(** Step 3 touches the product rows only. *)
Lemma loop_only_products env user cartItems :
  keeps (on_store only_products) (for_of cartItems (updateStock env user)).
Proof.
  unfold updateStock.
  on_store_steps only_products_refl only_products_trans
    ltac:(intros; eapply products_update_only; eassumption).
Qed.

(** A stock update that is lost is logged to the console, and the loop goes on. *)
Lemma lost_stock_update_is_logged env user cartItems w k item :
  nth_error cartItems k = Some item ->
  fails env (tick w + k) = true ->
  In (ConsoleError "Error updating stock:" RemoteFailure)
     (trace (snd (for_of cartItems (updateStock env user) w))).
Proof.
  revert w k. induction cartItems as [| x items IH]; intros w k Hk Hlost.
  - destruct k; discriminate.
  - simpl. unfold bind.
    rewrite (run_returns _ w (updateStock_returns env user x)).
    destruct k as [| k]; simpl in Hk.
    + inversion Hk; subst x. rewrite Nat.add_0_r in Hlost.
      destruct (keeps_for_of _ extends_refl extends_trans items _
                  (extends_updateStock env user)
                  (snd (updateStock env user item w))) as [rest Hrest].
      rewrite Hrest. apply in_or_app. left.
      unfold updateStock, bind, remote, answer. rewrite Hlost. cbn.
      apply in_or_app. right. left. reflexivity.
    + apply (IH _ k Hk). rewrite updateStock_tick.
      replace (S (tick w) + k)%nat with (tick w + S k)%nat by lia. exact Hlost.
Qed.

(** C2, as stated, fails for step 3: when the stock update is lost the error
    is written to the console only; the run still clears the cart, notifies
    success and navigates to the orders page. *)
Lemma stock_failure_counterexample :
  let w' := snd (handlePlaceOrder (Sample.losing 2) (Some Sample.alice) [one_nike]
                   (start Sample.shop_with_cart)) in
  trace w'
  = [SetPlacing true;
     Request (InsertOrder Sample.alice 12999 "pending");
     Request (InsertOrderItems [mkNewOrderItem "id--" "p-nike" 1 12999 "9"]);
     Request (UpdateProductStock "p-nike" 49);
     ConsoleError "Error updating stock:" RemoteFailure;
     Request (DeleteCartOf Sample.alice);
     ToastSuccess "Order placed successfully!";
     Navigate "/orders";
     SetPlacing false]
  /\ ~ In not_placed (trace w')
  /\ cart (db w') = []
  /\ map p_stock_quantity (products (db w')) = [75; 50; 20].
Proof.
  split; [reflexivity | split; [| split; reflexivity]].
  vm_compute. intuition discriminate.
Qed.

(** C2, amended: when step 1 (create order), step 2 (insert order lines) or
    step 4 (clear cart) fails, the error is logged and surfaced, the run ends
    Failed, and nothing is rolled back: after a failure of step 2 the order
    row of step 1 is still there; after a failure of step 4 the store is as
    step 3 left it, with the order, its lines and the cart.  A stock update
    of step 3 that fails is not surfaced: it is logged to the console only,
    every update is still sent and so is the request of step 4; when that one
    succeeds the caller's cart lines are deleted and the run ends notifying
    success.  ([w3] is the world after step 3.) *)
Theorem checkout_failure_semantics (env : Env) (u : uuid)
    (cartItems : list CartItem) (s : Store) :
  cartItems <> [] ->
  let w' := snd (handlePlaceOrder env (Some u) cartItems (start s)) in
  let sent1 := [SetPlacing true; Request (InsertOrder u (total cartItems) "pending")] in
  match answer env 0 (createOrder env u cartItems) s with
  | Err e =>
      trace w' = sent1 ++ failed_with e /\ db w' = s
  | Data (order, s1) =>
      let sent2 := sent1 ++ [Request (InsertOrderItems
                                        (orderItems_of (o_id order) cartItems))] in
      match answer env 1 (createOrderItems env u order cartItems) s1 with
      | Err e =>
          trace w' = sent2 ++ failed_with e
          /\ db w' = s1 /\ orders (db w') = orders s ++ [order]
      | Data (_, s2) =>
          let w3 := snd (for_of cartItems (updateStock env (Some u))
                           (mkWorld s2 2 sent2)) in
          stock_writes (trace w') = map stock_write cartItems
          /\ (forall k item,
                nth_error cartItems k = Some item ->
                fails env (2 + k) = true ->
                In (ConsoleError "Error updating stock:" RemoteFailure) (trace w'))
          /\ same_ledger s2 (db w3) /\ cart (db w3) = cart s
          /\ In (Request (DeleteCartOf u)) (trace w')
          /\ if fails env (2 + List.length cartItems)
             then In (ConsoleError "Error placing order:" RemoteFailure) (trace w')
                  /\ In not_placed (trace w') /\ ~ In placed (trace w')
                  /\ db w' = db w3
             else In placed (trace w') /\ ~ In not_placed (trace w')
                  /\ db w' = set_cart (others_cart u (db w3)) (db w3)
      end
  end.
Proof.
  intros Hne w' sent1. subst w'.
  rewrite (handlePlaceOrder_run env u cartItems (start s) Hne).
  cbn [start db tick trace app].
  destruct (answer env 0 (createOrder env u cartItems) s) as [[order s1] | e] eqn:H1.
  2:{ split; reflexivity. }
  destruct (answer env 1 (createOrderItems env u order cartItems) s1)
    as [[a s2] | e] eqn:H2.
  2:{ apply createOrder_data in H1 as [_ [-> _]]. repeat split. }
  cbn [snd db trace].
  apply createOrder_data in H1 as [_ [Hs1 _]].
  apply createOrderItems_data in H2.
  match goal with |- context [finish env u cartItems ?w] => set (w2 := w) end.
  change (mkWorld s2 2
            (sent1 ++ [Request (InsertOrderItems
                                  (orderItems_of (o_id order) cartItems))]))
    with w2.
  set (w3 := snd (for_of cartItems (updateStock env (Some u)) w2)).
  pose proof (finish_world env u cartItems w2) as Hw4.
  pose proof (finish_writes env u cartItems w2) as Hwrites.
  pose proof (finish_without env u cartItems w2) as Hwithout.
  destruct (loop_only_products env (Some u) cartItems w2) as [Hcart Hledger].
  cbv zeta in Hw4. fold w3 in Hw4, Hcart, Hledger.
  cbn [w2 db tick trace] in Hw4, Hwrites, Hwithout, Hcart, Hledger.
  set (w4 := finish env u cartItems w2) in *.
  assert (Hsent : In (Request (DeleteCartOf u)) (trace w4)).
  { rewrite Hw4. cbn [trace]. apply in_or_app. right. left. reflexivity. }
  assert (Hlogged : forall k item,
             nth_error cartItems k = Some item -> fails env (2 + k) = true ->
             In (ConsoleError "Error updating stock:" RemoteFailure) (trace w4)).
  { intros k item Hk Hlost. rewrite Hw4. cbn [trace]. apply in_or_app. left.
    apply (lost_stock_update_is_logged env (Some u) cartItems w2 k item Hk).
    exact Hlost. }
  split; [| split; [| split; [| split; [| split]]]].
  - rewrite stock_writes_app, Hwrites.
    destruct (fails env (2 + List.length cartItems)); cbn; apply app_nil_r.
  - intros k item Hk Hlost. apply in_or_app. left. exact (Hlogged k item Hk Hlost).
  - exact Hledger.
  - rewrite Hcart, H2, Hs1. reflexivity.
  - apply in_or_app. left. exact Hsent.
  - destruct (fails env (2 + List.length cartItems)) eqn:H4.
    + split; [| split; [| split]].
      * apply in_or_app. right. left. reflexivity.
      * apply in_or_app. right. right. left. reflexivity.
      * apply not_placed_when_failed. apply Hwithout; [reflexivity |].
        unfold placed. intros [H | [H | [H | []]]]; discriminate.
      * rewrite Hw4. reflexivity.
    + split; [| split].
      * apply in_or_app. right. left. reflexivity.
      * intro H. apply in_app_or in H as [H | H].
        -- revert H. apply Hwithout; [reflexivity |].
           unfold not_placed. intros [H | [H | [H | []]]]; discriminate.
        -- unfold not_placed, placed in H.
           repeat destruct H as [H | H]; try discriminate; exact H.
      * rewrite Hw4. reflexivity.
Qed.

Lemma checkout_failure_semantics_witness :
  let w' := snd (handlePlaceOrder (Sample.losing 2) (Some Sample.alice) [one_nike]
                   (start Sample.shop_with_cart)) in
  [one_nike] <> []
  /\ In (ConsoleError "Error updating stock:" RemoteFailure) (trace w')
  /\ In (Request (DeleteCartOf Sample.alice)) (trace w')
  /\ In placed (trace w').
Proof.
  assert (Hne : [one_nike] <> []) by discriminate.
  pose proof (checkout_failure_semantics (Sample.losing 2) Sample.alice [one_nike]
                Sample.shop_with_cart Hne) as H.
  cbv zeta in H.
  change (answer (Sample.losing 2) 0 (createOrder (Sample.losing 2) Sample.alice [one_nike])
            Sample.shop_with_cart)
    with (Data (mkOrderRow "id--" Sample.alice 12999 "pending" 100,
                set_orders [mkOrderRow "id--" Sample.alice 12999 "pending" 100]
                           Sample.shop_with_cart)) in H.
  cbv iota beta in H.
  match type of H with
  | match ?a with _ => _ end =>
      change a with (Data (tt,
                       set_order_items
                         [mkOrderItemRow "id-i-" "id--" "p-nike" 1 12999 "9"]
                         (set_orders [mkOrderRow "id--" Sample.alice 12999 "pending" 100]
                                     Sample.shop_with_cart))) in H
  end.
  cbv iota beta in H.
  destruct H as [_ [Hlog [_ [_ [Hsent Hout]]]]].
  change (fails (Sample.losing 2) (2 + List.length [one_nike])) with false in Hout.
  destruct Hout as [Hplaced _].
  split; [exact Hne | split; [| split; [exact Hsent | exact Hplaced]]].
  apply (Hlog 0%nat one_nike); reflexivity.
Defined.

(* ------------------------------------------------------------------ *)
(** ** The stock written by a checkout *)


Lemma is_admin_roles s s' caller :
  user_roles s' = user_roles s -> is_admin s' caller = is_admin s caller.
Proof.
  intro H. unfold is_admin, has_role. rewrite H. reflexivity.
Qed.








(* ------------------------------------------------------------------ *)
(** ** Stock after a successful checkout *)

(** C4 fails on the code.  The administrator's cart, in sync with the store,
    holds the same item in two sizes (2 + 1 pairs, stock 50).  The checkout
    succeeds and empties the cart, but each line overwrites the stock with
    50 minus its own quantity: the stock ends at 49, not 47. *)
Theorem two_sizes_stock_after_checkout :
  let s := Sample.shop_two_sizes in
  let items := loadCart Sample.root s in
  let w' := snd (handlePlaceOrder Sample.reliable (Some Sample.root) items (start s)) in
  map (fun item => (ci_product_id item, ci_quantity item,
                    cp_stock_quantity (ci_product item))) items
  = [("p-nike", 2, 50); ("p-nike", 1, 50)]
  /\ In placed (trace w')
  /\ cart (db w') = []
  /\ stock_writes (trace w') = [("p-nike", 48); ("p-nike", 49)]
  /\ map (fun p => (p_id p, p_stock_quantity p)) (products (db w'))
     = [("p-converse", 75); ("p-nike", 49); ("p-nb", 20)].
Proof.
  repeat split. vm_compute. do 6 right. left. reflexivity.
Qed.

(** The same claim also fails for a customer: the products policy lets only
    administrators update product rows, so the stock write of a caller without
    that role changes nothing, without an error.  Alice buys one pair; the
    checkout succeeds, the cart is empty, the stock is still 50. *)
Lemma customer_stock_after_checkout :
  let s := Sample.shop_with_cart in
  let w' := snd (handlePlaceOrder Sample.reliable (Some Sample.alice)
                   (loadCart Sample.alice s) (start s)) in
  In placed (trace w')
  /\ ~ In (ConsoleError "Error updating stock:" RemoteFailure) (trace w')
  /\ cart (db w') = []
  /\ stock_writes (trace w') = [("p-nike", 49)]
  /\ map (fun p => (p_id p, p_stock_quantity p)) (products (db w'))
     = [("p-converse", 75); ("p-nike", 50); ("p-nb", 20)].
Proof.
  repeat split.
  - vm_compute. do 5 right. left. reflexivity.
  - vm_compute. intuition discriminate.
Qed.

(* ------------------------------------------------------------------ *)
(** ** Deactivating a product *)

Lemma toggle_deactivates env admin pid w :
  is_admin (db w) (Some admin) = true ->
  fails env (tick w) = false ->
  db (snd (toggleProductStatus env (Some admin) pid true w)) = deactivated pid (db w).
Proof.
  intros Hadmin Hnet.
  unfold toggleProductStatus, adminFetchProducts, try_catch, try_catch_finally.
  unfold bind at 1. unfold bind at 1. unfold remote at 1. unfold answer at 1.
  rewrite Hnet. unfold products_update. rewrite Hadmin.
  cbn [negb throw_if_error ret]. unfold bind at 1. unfold bind at 1. cbn [emit].
  unfold bind, remote, answer. cbn [db tick trace].
  destruct (fails env (S (tick w))); reflexivity.
Qed.

Lemma in_insert_desc {A} (key : A -> Z) x y l :
  In y (insert_desc key x l) -> y = x \/ In y l.
Proof.
  induction l as [| z l IH]; simpl.
  - intros [<- | []]; auto.
  - destruct (key z <=? key x); simpl.
    + intros [<- | H]; auto.
    + intros [<- | H]; auto. destruct (IH H); auto.
Qed.

Lemma in_order_desc {A} (key : A -> Z) y l : In y (order_desc key l) -> In y l.
Proof.
  induction l as [| x l IH]; simpl; [auto |].
  intro H. apply in_insert_desc in H as [-> | H]; auto.
Qed.

Lemma deactivated_not_listed pid s caller p :
  In p (fetchProducts caller (deactivated pid s)) -> p_id p <> pid.
Proof.
  unfold fetchProducts, products_select. intro H.
  apply in_order_desc in H. apply filter_In in H as [H Hactive].
  apply filter_In in H as [H _]. cbn in H.
  apply in_map_iff in H as [q [Hq _]].
  destruct (p_id q =? pid)%string eqn:E.
  - subst p. discriminate.
  - subst p. apply String.eqb_neq. exact E.
Qed.

Lemma deactivated_is_admin pid s caller :
  is_admin (deactivated pid s) caller = is_admin s caller.
Proof. reflexivity. Qed.

Lemma bare_embed caller s r :
  bare_item (embed_item caller s r)
  = mkOrderItem (oi_id r) (oi_quantity r) (oi_price r) (oi_selected_size r) None.
Proof. reflexivity. Qed.

Lemma deactivated_bare_orders pid s u :
  map bare_order (fetchOrders u (deactivated pid s)) = map bare_order (fetchOrders u s).
Proof.
  unfold fetchOrders. rewrite !map_map.
  change (orders_select (Some u) (deactivated pid s)) with (orders_select (Some u) s).
  change (order_items_select (Some u) (deactivated pid s))
    with (order_items_select (Some u) s).
  apply map_ext. intro o. unfold bare_order. cbn.
  rewrite !map_map. f_equal.
Qed.

Lemma find_deactivated_other pid pid' (visible visible' : Product -> bool) l :
  pid' <> pid ->
  (forall p, p_id p <> pid -> visible' p = visible p) ->
  find (fun p => (p_id p =? pid')%string)
       (filter visible'
          (map (fun p => if (p_id p =? pid)%string then with_is_active false p else p) l))
  = find (fun p => (p_id p =? pid')%string) (filter visible l).
Proof.
  intros Hne Hvis. induction l as [| q l IH]; [reflexivity |].
  cbn [map filter].
  destruct (p_id q =? pid)%string eqn:E.
  - apply String.eqb_eq in E.
    assert (Hq : (p_id q =? pid')%string = false)
      by (apply String.eqb_neq; congruence).
    destruct (visible' (with_is_active false q)), (visible q); cbn [find p_id with_is_active];
      rewrite ?Hq; exact IH.
  - apply String.eqb_neq in E. rewrite (Hvis q E).
    destruct (visible q); cbn [find]; [| exact IH].
    destruct (p_id q =? pid')%string; [reflexivity | exact IH].
Qed.

Lemma deactivated_embed_other pid s u pid' :
  pid' <> pid ->
  embed_product (Some u) (deactivated pid s) pid' = embed_product (Some u) s pid'.
Proof.
  intro Hne. unfold embed_product, products_select. cbn [products deactivated set_products].
  rewrite (find_deactivated_other pid pid' (products_visible s (Some u))
             (products_visible (deactivated pid s) (Some u)) (products s) Hne);
    [reflexivity |].
  intros p _. reflexivity.
Qed.

Lemma deactivated_embed_hidden pid s u :
  is_admin s (Some u) = false ->
  embed_product (Some u) (deactivated pid s) pid = None.
Proof.
  intro Hadmin. unfold embed_product, products_select, products_visible.
  rewrite deactivated_is_admin, Hadmin. cbn [products deactivated set_products].
  induction (products s) as [| q l IH]; [reflexivity |].
  cbn [map filter].
  destruct (p_id q =? pid)%string eqn:E.
  - cbn. exact IH.
  - destruct (p_is_active q || false); [| exact IH].
    cbn [find]. rewrite E. exact IH.
Qed.

Lemma deactivated_embed_admin pid s u pid' :
  is_admin s (Some u) = true ->
  embed_product (Some u) (deactivated pid s) pid' = embed_product (Some u) s pid'.
Proof.
  intro Hadmin. unfold embed_product, products_select, products_visible.
  rewrite deactivated_is_admin, Hadmin. cbn [products deactivated set_products].
  induction (products s) as [| q l IH]; [reflexivity |].
  cbn [map filter]. rewrite !orb_true_r.
  destruct (p_id q =? pid)%string eqn:E; cbn [find p_id with_is_active].
  - destruct (p_id q =? pid')%string; [reflexivity | exact IH].
  - destruct (p_id q =? pid')%string; [reflexivity | exact IH].
Qed.

Lemma deactivated_orders_admin pid s u :
  is_admin s (Some u) = true ->
  fetchOrders u (deactivated pid s) = fetchOrders u s.
Proof.
  intro Hadmin. unfold fetchOrders.
  change (orders_select (Some u) (deactivated pid s)) with (orders_select (Some u) s).
  change (order_items_select (Some u) (deactivated pid s))
    with (order_items_select (Some u) s).
  apply map_ext. intro o. f_equal.
  apply map_ext. intro r. unfold embed_item. f_equal.
  apply deactivated_embed_admin. exact Hadmin.
Qed.

(** C9 fails on the code.  Alice's order history holds a line for an item;
    the administrator deactivates the item.  Alice still reads the order and
    the line, but the embedded item name and image, which the orders page
    declares present and renders, are gone: the products policy shows inactive
    rows to administrators only, and the embed follows it. *)
Theorem deactivation_hides_embedded_product :
  let s := Sample.shop_history in
  let w' := snd (toggleProductStatus Sample.reliable (Some Sample.root) "p-nike" true
                   (start s)) in
  In (ToastSuccess "Product deactivated successfully") (trace w')
  /\ map (fun o => map item_product (order_order_items o)) (fetchOrders Sample.alice s)
     = [[Some ("Nike Air Max 270",
               "https://images.unsplash.com/photo-1542291026-7eec264c27ff?w=400")]]
  /\ map (fun o => map item_product (order_order_items o))
         (fetchOrders Sample.alice (db w'))
     = [[None]]
  /\ fetchOrders Sample.alice (db w') <> fetchOrders Sample.alice s.
Proof.
  repeat split.
  - vm_compute. right. left. reflexivity.
  - vm_compute. discriminate.
Qed.

(** What deactivation changes for every store: the item leaves every catalog
    read; every order and order line stays in every owner's history with its
    own columns; the embedded name and image stay for lines of other items
    and for administrators, and become null for any other reader of a line of
    the deactivated item. *)
Lemma deactivation_effect (env : Env) (admin : uuid) (pid : uuid) (w : World) :
  is_admin (db w) (Some admin) = true ->
  fails env (tick w) = false ->
  let s := db w in
  let s' := db (snd (toggleProductStatus env (Some admin) pid true w)) in
  (forall caller p, In p (fetchProducts caller s') -> p_id p <> pid)
  /\ (forall u, map bare_order (fetchOrders u s') = map bare_order (fetchOrders u s))
  /\ (forall u, is_admin s (Some u) = true -> fetchOrders u s' = fetchOrders u s)
  /\ (forall u pid', pid' <> pid ->
        embed_product (Some u) s' pid' = embed_product (Some u) s pid')
  /\ (forall u, is_admin s (Some u) = false -> embed_product (Some u) s' pid = None).
Proof.
  intros Hadmin Hnet s s'. subst s s'.
  rewrite (toggle_deactivates env admin pid w Hadmin Hnet).
  repeat split.
  - intros caller p. apply deactivated_not_listed.
  - intro u. apply deactivated_bare_orders.
  - intros u. apply deactivated_orders_admin.
  - intros u pid'. apply deactivated_embed_other.
  - intros u. apply deactivated_embed_hidden.
Qed.

Example deactivation_effect_on_history :
  let s := Sample.shop_history in
  let s' := db (snd (toggleProductStatus Sample.reliable (Some Sample.root) "p-nike" true
                       (start s))) in
  (forall caller p, In p (fetchProducts caller s') -> p_id p <> "p-nike")
  /\ map bare_order (fetchOrders Sample.alice s')
     = map bare_order (fetchOrders Sample.alice s)
  /\ embed_product (Some Sample.alice) s' "p-nike" = None.
Proof.
  destruct (deactivation_effect Sample.reliable Sample.root "p-nike"
              (start Sample.shop_history))
    as [Hcat [Hbare [_ [_ Hnull]]]]; [reflexivity | reflexivity |].
  split; [exact Hcat | split; [apply Hbare | apply Hnull; reflexivity]].
Qed.
(* ------------------------------------------------------------------ *)
(** ** More on the checkout *)

(** X1: a checkout that enters Submitting sets the placing flag once, at the
    start, and resets it once, as the last thing it does, whatever the store
    answers; in between it notifies exactly one outcome, success or failure,
    never both. *)
Theorem placing_is_always_reset (env : Env) (u : uuid)
    (cartItems : list CartItem) (s : Store) :
  cartItems <> [] ->
  exists body,
    trace (snd (handlePlaceOrder env (Some u) cartItems (start s)))
    = SetPlacing true :: body ++ [SetPlacing false]
    /\ (forall b, ~ In (SetPlacing b) body)
    /\ (In placed body /\ ~ In not_placed body
        \/ In not_placed body /\ ~ In placed body).
Proof.
  intro Hne.
  rewrite (handlePlaceOrder_run env u cartItems (start s) Hne).
  cbn [start db tick trace app].
  destruct (answer env 0 (createOrder env u cartItems) s) as [[order s1] | e].
  2:{ eexists [_; _; _]. cbn. split; [reflexivity |]. split.
      - intros b H. unfold not_placed in H.
        repeat destruct H as [H | H]; try discriminate; exact H.
      - right. unfold placed, not_placed. split; [auto |].
        intro H. repeat destruct H as [H | H]; try discriminate; exact H. }
  destruct (answer env 1 (createOrderItems env u order cartItems) s1) as [[a s2] | e].
  2:{ eexists [_; _; _; _]. cbn. split; [reflexivity |]. split.
      - intros b H. unfold not_placed in H.
        repeat destruct H as [H | H]; try discriminate; exact H.
      - right. unfold placed, not_placed. split; [auto 6 |].
        intro H. repeat destruct H as [H | H]; try discriminate; exact H. }
  cbn [snd trace].
  match goal with |- context [finish env u cartItems ?w] => set (w2 := w) end.
  destruct (finish_adds env u cartItems w2) as [rest [Hrest Hok]].
  rewrite Hrest. cbn [w2 trace].
  assert (Hbg : forall ev, background ev = false -> ~ In ev rest).
  { intros ev Hev Hin. apply (background_in _ _ Hok) in Hin. congruence. }
  destruct (fails env (2 + List.length cartItems)).
  - exists ([Request (InsertOrder u (total cartItems) "pending");
             Request (InsertOrderItems (orderItems_of (o_id order) cartItems))]
            ++ rest ++ [ConsoleError "Error placing order:" RemoteFailure; not_placed]).
    split; [| split].
    + cbn. rewrite <- !app_assoc. reflexivity.
    + intros b H. cbn in H. destruct H as [H | [H | H]]; try discriminate.
      apply in_app_or in H as [H | H]; [eapply Hbg; [| exact H]; reflexivity |].
      unfold not_placed in H. repeat destruct H as [H | H]; try discriminate; exact H.
    + right. split.
      * apply in_or_app. right. apply in_or_app. right. right. left. reflexivity.
      * intro H. cbn in H. destruct H as [H | [H | H]]; try discriminate.
        apply in_app_or in H as [H | H]; [eapply Hbg; [| exact H]; reflexivity |].
        unfold placed, not_placed in H.
        repeat destruct H as [H | H]; try discriminate; exact H.
  - exists ([Request (InsertOrder u (total cartItems) "pending");
             Request (InsertOrderItems (orderItems_of (o_id order) cartItems))]
            ++ rest ++ [placed; Navigate "/orders"]).
    split; [| split].
    + cbn. rewrite <- !app_assoc. reflexivity.
    + intros b H. cbn in H. destruct H as [H | [H | H]]; try discriminate.
      apply in_app_or in H as [H | H]; [eapply Hbg; [| exact H]; reflexivity |].
      unfold placed in H. repeat destruct H as [H | H]; try discriminate; exact H.
    + left. split.
      * apply in_or_app. right. apply in_or_app. right. left. reflexivity.
      * intro H. cbn in H. destruct H as [H | [H | H]]; try discriminate.
        apply in_app_or in H as [H | H]; [eapply Hbg; [| exact H]; reflexivity |].
        unfold placed, not_placed in H.
        repeat destruct H as [H | H]; try discriminate; exact H.
Qed.

Lemma placing_is_always_reset_witness :
  exists body,
    trace (snd (handlePlaceOrder (Sample.losing 0) (Some Sample.alice) [one_nike]
                  (start Sample.shop_with_cart)))
    = SetPlacing true :: body ++ [SetPlacing false]
    /\ In not_placed body.
Proof.
  destruct (placing_is_always_reset (Sample.losing 0) Sample.alice [one_nike]
              Sample.shop_with_cart) as [body [Ht [_ Hout]]]; [discriminate |].
  exists body. split; [exact Ht |].
  destruct Hout as [[Hp _] | [Hn _]]; [| exact Hn].
  exfalso. assert (Hin : In placed (SetPlacing true :: body ++ [SetPlacing false]))
    by (right; apply in_or_app; left; exact Hp).
  rewrite <- Ht in Hin. vm_compute in Hin.
  repeat destruct Hin as [Hin | Hin]; try discriminate; exact Hin.
Defined.

Lemma keeps_others_refl u s : keeps_others u s s.
Proof. reflexivity. Qed.

Lemma keeps_others_trans u a b c :
  keeps_others u a b -> keeps_others u b c -> keeps_others u a c.
Proof. unfold keeps_others; congruence. Qed.

Lemma products_update_others u caller pid patch s a s' :
  products_update caller pid patch s = Data (a, s') -> keeps_others u s s'.
Proof.
  unfold products_update. destruct (is_admin s caller); intro H; inversion H;
    reflexivity.
Qed.

Lemma cart_delete_others u pred s a s' :
  cart_delete (Some u) pred s = Data (a, s') -> keeps_others u s s'.
Proof.
  unfold cart_delete. intro H; inversion H; subst. unfold keeps_others, others_cart.
  cbn [cart set_cart uid_is]. clear H.
  induction (cart s) as [| c l IH]; [reflexivity |].
  cbn [filter]. destruct (u =? c_user_id c)%string eqn:E.
  - apply String.eqb_eq in E. subst u.
    cbn [andb]. destruct (pred c); cbn [negb filter]; rewrite String.eqb_refl;
      cbn [negb]; exact IH.
  - cbn [andb negb filter]. rewrite String.eqb_sym, E. cbn [negb]. rewrite IH.
    reflexivity.
Qed.

Lemma finish_others env u cartItems w2 :
  keeps_others u (db w2) (db (finish env u cartItems w2)).
Proof.
  unfold finish.
  assert (Hloop : keeps (on_store (keeps_others u))
                        (for_of cartItems (updateStock env (Some u)))).
  { unfold updateStock.
    on_store_steps (keeps_others_refl u) (keeps_others_trans u)
      ltac:(intros; eapply products_update_others; eassumption). }
  assert (Hclear : keeps (on_store (keeps_others u)) (clearCart env (Some u))).
  { unfold clearCart.
    on_store_steps (keeps_others_refl u) (keeps_others_trans u)
      ltac:(intros; eapply cart_delete_others; eassumption). }
  exact (keeps_others_trans _ _ _ _ (Hloop w2) (Hclear _)).
Qed.

Lemma stamp_order_id gen id cartItems i r :
  In r (stamp gen i (orderItems_of id cartItems)) -> oi_order_id r = id.
Proof.
  revert i. induction cartItems as [| item items IH]; intros i H; simpl in H.
  - destruct H.
  - destruct H as [<- | H]; [reflexivity | exact (IH _ H)].
Qed.

(** X2: a checkout never removes or changes a stored order or order line: it
    appends at most one order, owned by the caller and pending, and lines of
    that order only; it leaves the cart lines of the other owners and the role
    assignments as they are. *)
Theorem checkout_only_appends (env : Env) (u : uuid)
    (cartItems : list CartItem) (w : World) :
  let s := db w in
  let s' := db (snd (handlePlaceOrder env (Some u) cartItems w)) in
  (exists new lines,
      orders s' = orders s ++ new
      /\ order_items s' = order_items s ++ lines
      /\ (List.length new <= 1)%nat
      /\ (forall o, In o new -> o_user_id o = u /\ o_status o = "pending")
      /\ (forall r, In r lines -> In (oi_order_id r) (map o_id new)))
  /\ others_cart u s' = others_cart u s
  /\ user_roles s' = user_roles s.
Proof.
  intros s s'. subst s s'.
  destruct cartItems as [| item items].
  { cbn. split; [| split; reflexivity].
    exists [], []. rewrite !app_nil_r.
    split; [reflexivity | split; [reflexivity | split; [auto |]]].
    split; intros ? []. }
  assert (Hne : item :: items <> []) by discriminate.
  set (cartItems := item :: items) in *.
  rewrite (handlePlaceOrder_run env u cartItems w Hne).
  cbv zeta.
  destruct (answer env (tick w) (createOrder env u cartItems) (db w))
    as [[order s1] | e] eqn:H1.
  2:{ cbn. split; [| split; reflexivity].
      exists [], []. rewrite !app_nil_r.
    split; [reflexivity | split; [reflexivity | split; [auto |]]].
    split; intros ? []. }
  apply createOrder_data in H1 as [Horder [Hs1 Hnew]].
  destruct (answer env (S (tick w)) (createOrderItems env u order cartItems) s1)
    as [[a s2] | e] eqn:H2.
  2:{ cbn [snd db]. rewrite Hs1. cbn. split; [| split; reflexivity].
      exists [order], []. rewrite !app_nil_r.
      split; [reflexivity | split; [reflexivity | split; [auto |]]].
      split; [| intros ? []].
      intros o [<- | []]. rewrite Horder. split; reflexivity. }
  apply createOrderItems_data in H2.
  cbn [snd db].
  match goal with |- context [finish env u cartItems ?w] => set (w2 := w) end.
  destruct (finish_ledger env u cartItems w2) as [Ho [Hi Hr]].
  pose proof (finish_others env u cartItems w2) as Hc.
  cbn [w2 db] in Ho, Hi, Hr, Hc.
  split; [| split].
  - exists [order],
           (stamp (fun i => gen_random_uuid env (S (tick w)) i) 0
                  (orderItems_of (o_id order) cartItems)).
    rewrite Ho, Hi, H2, Hs1. cbn [orders order_items set_orders set_order_items].
    split; [reflexivity | split; [reflexivity | split; [auto |]]].
    split.
    + intros o [<- | []]. rewrite Horder. split; reflexivity.
    + intros r Hin. left. symmetry. eapply stamp_order_id; exact Hin.
  - rewrite Hc, H2, Hs1. reflexivity.
  - rewrite Hr, H2, Hs1. reflexivity.
Qed.

(** *** Callers without the administrator role *)

Lemma catalog_guarded_refl caller s : catalog_guarded caller s s.
Proof. intros _. apply same_catalog_refl. Qed.

Lemma catalog_guarded_trans caller a b c :
  catalog_guarded caller a b -> catalog_guarded caller b c -> catalog_guarded caller a c.
Proof.
  intros Hab Hbc Ha. specialize (Hab Ha).
  apply (same_catalog_trans _ _ _ Hab). apply Hbc.
  rewrite <- Ha. apply is_admin_roles. apply Hab.
Qed.

Lemma same_catalog_guarded caller s s' : same_catalog s s' -> catalog_guarded caller s s'.
Proof. intros H _. exact H. Qed.

Lemma products_update_guarded caller pid patch s a s' :
  products_update caller pid patch s = Data (a, s') -> catalog_guarded caller s s'.
Proof.
  unfold products_update. intros H Hadmin. rewrite Hadmin in H.
  inversion H. apply same_catalog_refl.
Qed.

Lemma products_delete_guarded caller pid s a s' :
  products_delete caller pid s = Data (a, s') -> catalog_guarded caller s s'.
Proof.
  unfold products_delete. intros H Hadmin. rewrite Hadmin in H.
  inversion H. apply same_catalog_refl.
Qed.

Lemma keeps_request (R : World -> World -> Prop) {A} (env : Env)
    (op : nat -> Store -> Response (A * Store)) :
  (forall w, R w (mkWorld (db w) (S (tick w)) (trace w))) ->
  (forall w a s', answer env (tick w) op (db w) = Data (a, s') ->
                  R w (mkWorld s' (S (tick w)) (trace w))) ->
  keeps R (request env op).
Proof.
  intros Hlost Hdone w. unfold request.
  destruct (answer env (tick w) op (db w)) as [[a s'] | e] eqn:Ha; simpl.
  - apply Hdone with a; exact Ha.
  - apply Hlost.
Qed.

Lemma on_store_request (P : Store -> Store -> Prop) (P_refl : forall s, P s s)
    {A} env (op : nat -> Store -> Response (A * Store)) :
  (forall n s a s', op n s = Data (a, s') -> P s s') ->
  keeps (on_store P) (request env op).
Proof.
  intro Hop. apply keeps_request.
  - intro w; apply P_refl.
  - intros w a s' Ha. unfold answer in Ha.
    destruct (fails env (tick w)); [discriminate |].
    exact (Hop _ _ _ _ Ha).
Qed.

Ltac guarded_steps caller :=
  step_keeps (on_store_refl _ (catalog_guarded_refl caller))
             (on_store_trans _ (catalog_guarded_trans caller))
    ltac:(first
      [ apply (on_store_emit _ (catalog_guarded_refl caller))
      | apply (on_store_remote _ (catalog_guarded_refl caller)
                 (catalog_guarded_trans caller));
        intros;
        first [ eapply products_update_guarded; eassumption
              | eapply same_catalog_guarded, orders_insert_catalog; eassumption
              | eapply same_catalog_guarded, order_items_insert_catalog; eassumption
              | eapply same_catalog_guarded, cart_delete_catalog; eassumption
              | match goal with H : Data _ = Data _ |- _ =>
                  inversion H; subst; apply catalog_guarded_refl end ]
      | apply (on_store_request _ (catalog_guarded_refl caller));
        intros; eapply products_delete_guarded; eassumption ]).

(** X3: for a caller without the administrator role the product rows are out
    of reach: neither a checkout (its stock writes), nor
    [toggleProductStatus], nor [handleDelete] changes any of them. *)
Theorem catalog_needs_administrator (env : Env) (user : option uuid) (w : World) :
  is_admin (db w) user = false ->
  (forall cartItems,
     products (db (snd (handlePlaceOrder env user cartItems w))) = products (db w))
  /\ (forall productId currentStatus,
        products (db (snd (toggleProductStatus env user productId currentStatus w)))
        = products (db w))
  /\ (forall productId,
        products (db (snd (handleDelete env user productId w))) = products (db w)).
Proof.
  intro Hadmin. split; [| split].
  - intro cartItems.
    assert (H : keeps (on_store (catalog_guarded user))
                      (handlePlaceOrder env user cartItems)).
    { unfold handlePlaceOrder, updateStock, clearCart.
      destruct user as [u |]; [| intros w0 _; apply same_catalog_refl].
      destruct (List.length cartItems =? 0)%nat;
        [intros w0 _; apply same_catalog_refl |].
      guarded_steps (Some u). }
    apply (H w Hadmin).
  - intros productId currentStatus.
    assert (H : keeps (on_store (catalog_guarded user))
                      (toggleProductStatus env user productId currentStatus)).
    { unfold toggleProductStatus, adminFetchProducts. guarded_steps user. }
    apply (H w Hadmin).
  - intro productId.
    assert (H : keeps (on_store (catalog_guarded user))
                      (handleDelete env user productId)).
    { unfold handleDelete, adminFetchProducts. guarded_steps user. }
    apply (H w Hadmin).
Qed.

Lemma catalog_needs_administrator_witness :
  products (db (snd (handlePlaceOrder Sample.reliable (Some Sample.alice) [one_nike]
                       (start Sample.shop_with_cart))))
  = Sample.catalog
  /\ products (db (snd (handleDelete Sample.reliable (Some Sample.alice) "p-converse"
                          (start Sample.shop_with_cart))))
     = Sample.catalog.
Proof.
  destruct (catalog_needs_administrator Sample.reliable (Some Sample.alice)
              (start Sample.shop_with_cart)) as [Hplace [_ Hdelete]]; [reflexivity |].
  split; [apply Hplace | apply Hdelete].
Defined.

(** X4: stock is written only for an order that is recorded.  A checkout
    that sends a stock update has committed the order row and all its lines
    before, and they are in the store when it ends, whatever fails afterwards;
    it then sends the update of every cart line.  A checkout that ends without
    having sent one has not notified success and has left products, cart and
    order lines as they were, and at most the caller's order row behind. *)
Theorem stock_written_after_order (env : Env) (u : uuid)
    (cartItems : list CartItem) (s : Store) :
  let w' := snd (handlePlaceOrder env (Some u) cartItems (start s)) in
  (stock_writes (trace w') = [] ->
     ~ In placed (trace w')
     /\ products (db w') = products s
     /\ cart (db w') = cart s
     /\ order_items (db w') = order_items s
     /\ (orders (db w') = orders s
         \/ exists order, orders (db w') = orders s ++ [order] /\ o_user_id order = u))
  /\ (stock_writes (trace w') <> [] ->
     stock_writes (trace w') = map stock_write cartItems
     /\ exists order lines,
          orders (db w') = orders s ++ [order]
          /\ o_user_id order = u /\ o_total_amount order = total cartItems
          /\ order_items (db w') = order_items s ++ lines
          /\ map line_columns lines = map cart_columns cartItems
          /\ forall r, In r lines -> oi_order_id r = o_id order).
Proof.
  intro w'. subst w'.
  destruct cartItems as [| item items].
  { cbn. split; [intros _ | intro H; congruence].
    repeat split; auto. }
  assert (Hne : item :: items <> []) by discriminate.
  set (cartItems := item :: items) in *. clearbody cartItems.
  rewrite (handlePlaceOrder_run env u cartItems (start s) Hne).
  cbn [start db tick trace app].
  destruct (answer env 0 (createOrder env u cartItems) s) as [[order s1] | e] eqn:H1.
  2:{ cbn. split; [intros _ | intro H; congruence].
      split; [| repeat split; left; reflexivity].
      unfold placed, not_placed.
      intro H. repeat destruct H as [H | H]; try discriminate; exact H. }
  apply createOrder_data in H1 as [Horder [Hs1 Hnew]].
  destruct (answer env 1 (createOrderItems env u order cartItems) s1)
    as [[a s2] | e] eqn:H2.
  2:{ cbn [snd db trace]. rewrite Hs1. cbn.
      split; [intros _ | intro H; congruence].
      split; [| repeat split; right; exists order;
                (split; [reflexivity | rewrite Horder; reflexivity])].
      unfold placed, not_placed.
      intro H. repeat destruct H as [H | H]; try discriminate; exact H. }
  apply createOrderItems_data in H2.
  cbn [snd db trace].
  match goal with |- context [finish env u cartItems ?w] => set (w2 := w) end.
  destruct (finish_ledger env u cartItems w2) as [Ho [Hi _]].
  cbn [w2 db] in Ho, Hi.
  assert (Hwrites : stock_writes
                      (trace (finish env u cartItems w2)
                       ++ (if fails env (2 + List.length cartItems)
                           then failed_with RemoteFailure
                           else [placed; Navigate "/orders"; SetPlacing false]))
                    = map stock_write cartItems).
  { rewrite stock_writes_app, finish_writes.
    destruct (fails env (2 + List.length cartItems)); cbn; apply app_nil_r. }
  rewrite Hwrites.
  split; [intro H; apply map_eq_nil in H; contradiction | intros _].
  split; [reflexivity |].
  exists order, (stamp (fun i => gen_random_uuid env 1 i) 0
                       (orderItems_of (o_id order) cartItems)).
  rewrite Ho, Hi, H2, Hs1. cbn [orders order_items set_orders set_order_items].
  split; [reflexivity |]. split; [rewrite Horder; reflexivity |].
  split; [rewrite Horder; reflexivity |]. split; [reflexivity |].
  split; [apply stamp_columns |].
  intros r Hr. eapply stamp_order_id; exact Hr.
Qed.

Lemma stock_written_after_order_witness :
  let lost := snd (handlePlaceOrder (Sample.losing 1) (Some Sample.alice) [one_nike]
                     (start Sample.shop_with_cart)) in
  let sent := snd (handlePlaceOrder (Sample.losing 3) (Some Sample.alice) [one_nike]
                     (start Sample.shop_with_cart)) in
  (cart (db lost) = cart Sample.shop_with_cart
   /\ order_items (db lost) = [] /\ List.length (orders (db lost)) = 1%nat)
  /\ (In not_placed (trace sent)
      /\ stock_writes (trace sent) = [("p-nike", 49)]
      /\ exists order lines,
           orders (db sent) = [order] /\ order_items (db sent) = lines
           /\ map line_columns lines = [("p-nike", 1, 12999, "9")]).
Proof.
  destruct (stock_written_after_order (Sample.losing 1) Sample.alice [one_nike]
              Sample.shop_with_cart) as [Hlost _].
  destruct (stock_written_after_order (Sample.losing 3) Sample.alice [one_nike]
              Sample.shop_with_cart) as [_ Hsent].
  split.
  - destruct Hlost as [_ [_ [Hc [Hi _]]]]; [reflexivity |].
    split; [exact Hc | split; [exact Hi | reflexivity]].
  - destruct Hsent as [Hw [order [lines [Ho [_ [_ [Hi [Hcols _]]]]]]]];
      [vm_compute; discriminate |].
    split; [vm_compute; do 6 right; left; reflexivity |].
    split; [exact Hw |].
    exists order, lines. split; [exact Ho | split; [exact Hi | exact Hcols]].
Defined.

(** *** A cart with one line per item *)






(* ------------------------------------------------------------------ *)
(** ** More on the catalog page *)

Lemma prefix_append s t : String.prefix s (String.append s t) = true.
Proof.
  induction s as [| c s IH]; simpl; [destruct t; reflexivity |].
  destruct (ascii_dec c c); [exact IH | congruence].
Qed.

Lemma includes_append a t b :
  includes (String.append a (String.append t b)) t = true.
Proof.
  induction a as [| c a IH].
  - cbn [String.append]. destruct (String.append t b) eqn:E.
    + destruct t; [reflexivity | discriminate].
    + cbn [includes]. rewrite <- E, prefix_append. reflexivity.
  - cbn [String.append includes]. rewrite IH. apply orb_true_r.
Qed.

Lemma toLowerCase_append a b :
  toLowerCase (String.append a b) = String.append (toLowerCase a) (toLowerCase b).
Proof. induction a as [| c a IH]; simpl; [reflexivity | rewrite IH; reflexivity]. Qed.

Lemma includes_empty s : includes s "" = true.
Proof. destruct s; reflexivity. Qed.

(** X6: for a product whose name and brand are ASCII and a search term that
    is ASCII, the search box finds the product by any fragment of its name or
    of its brand, typed in any letter case. *)
Theorem search_finds_fragments (products : list Product) (p : Product)
    (a t b term : string) :
  In p products ->
  ascii_only (p_name p) = true ->
  ascii_only (p_brand p) = true ->
  ascii_only term = true ->
  p_name p = String.append a (String.append t b)
  \/ p_brand p = String.append a (String.append t b) ->
  toLowerCase term = toLowerCase t ->
  In p (filteredProducts products term "all" "all").
Proof.
  intros Hp _ _ _ Hfrag Hterm. unfold filteredProducts.
  apply filter_In. split; [exact Hp |].
  cbn [String.eqb orb matchesPrice]. rewrite Hterm.
  replace (matchesPrice "all" (p_price p)) with true by reflexivity.
  rewrite !andb_true_r.
  destruct Hfrag as [-> | ->]; rewrite !toLowerCase_append, includes_append;
    [reflexivity | apply orb_true_r].
Qed.

Lemma search_finds_fragments_witness :
  In Sample.new_balance (filteredProducts Sample.catalog "BALANCE" "all" "all").
Proof.
  apply (search_finds_fragments Sample.catalog Sample.new_balance
           "New " "Balance" " 990v5" "BALANCE").
  - right; right; left; reflexivity.
  - reflexivity.
  - reflexivity.
  - reflexivity.
  - left; reflexivity.
  - reflexivity.
Defined.

Lemma filter_true {A} (f : A -> bool) (l : list A) :
  (forall x, In x l -> f x = true) -> filter f l = l.
Proof.
  induction l as [| x l IH]; intro H; simpl; [reflexivity |].
  rewrite (H x (or_introl eq_refl)), IH; [reflexivity |].
  intros y Hy. apply H. right. exact Hy.
Qed.

(** X7: for any search term and brand, the results of the three price
    brackets together are exactly the results without a price filter, each
    product in one bracket; with no filter at all every product is listed. *)
Theorem brackets_split_the_result (products : list Product)
    (searchTerm selectedBrand : string) :
  Permutation
    (filteredProducts products searchTerm selectedBrand "under-100"
     ++ filteredProducts products searchTerm selectedBrand "100-200"
     ++ filteredProducts products searchTerm selectedBrand "over-200")
    (filteredProducts products searchTerm selectedBrand "all")
  /\ filteredProducts products "" "all" "all" = products.
Proof.
  split.
  - unfold filteredProducts.
    induction products as [| p ps IH]; [constructor |].
    cbn [filter].
    destruct ((includes (toLowerCase (p_name p)) (toLowerCase searchTerm)
               || includes (toLowerCase (p_brand p)) (toLowerCase searchTerm))
              && ((selectedBrand =? "all")%string
                  || (p_brand p =? selectedBrand)%string)) eqn:Hbase.
    2:{ cbn [andb]. exact IH. }
    cbn [andb].
    replace (matchesPrice "all" (p_price p)) with true by reflexivity.
    replace (matchesPrice "under-100" (p_price p)) with (p_price p <? 10000)
      by reflexivity.
    replace (matchesPrice "100-200" (p_price p))
      with ((10000 <=? p_price p) && (p_price p <=? 20000)) by reflexivity.
    replace (matchesPrice "over-200" (p_price p)) with (20000 <? p_price p)
      by reflexivity.
    destruct (p_price p <? 10000) eqn:Hlo.
    + assert (H1 : (10000 <=? p_price p) = false) by lia.
      assert (H2 : (20000 <? p_price p) = false) by lia.
      rewrite H1, H2. cbn [andb]. cbn [app]. constructor. exact IH.
    + destruct (p_price p <=? 20000) eqn:Hhi.
      * assert (H1 : (10000 <=? p_price p) = true) by lia.
        assert (H2 : (20000 <? p_price p) = false) by lia.
        rewrite H1, H2. cbn [andb].
        apply Permutation_sym, Permutation_cons_app, Permutation_sym. exact IH.
      * assert (H2 : (20000 <? p_price p) = true) by lia.
        rewrite H2, andb_false_r.
        rewrite app_assoc.
        apply Permutation_sym, Permutation_cons_app, Permutation_sym.
        rewrite <- app_assoc. exact IH.
  - unfold filteredProducts. apply filter_true. intros p _.
    cbn. rewrite includes_empty. reflexivity.
Qed.

(** *** The brand selector *)

Lemma set_values_step (values seen : list string) :
  let result := fold_left (fun seen v => if mem v seen then seen else seen ++ [v])
                          values seen in
  (NoDup seen -> NoDup result)
  /\ (forall b, In b result <-> In b seen \/ In b values).
Proof.
  revert seen. induction values as [| v values IH]; intro seen; cbn.
  - split; [auto | intro b; tauto].
  - destruct (mem v seen) eqn:E.
    + destruct (IH seen) as [Hn Hin]. split; [exact Hn |].
      intro b. rewrite Hin.
      apply existsb_exists in E as [y [Hy Hyv]]. apply String.eqb_eq in Hyv. subst y.
      split; [tauto |]. intros [H | [<- | H]]; auto.
    + destruct (IH (seen ++ [v])) as [Hn Hin]. split.
      * intro Hs. apply Hn. apply NoDup_app; [exact Hs | repeat constructor; intros [] |].
        intros x Hx [Hv | []]. subst x.
        assert (mem v seen = true)
          by (apply existsb_exists; exists v; split; [exact Hx | apply String.eqb_refl]).
        congruence.
      * intro b. rewrite Hin, in_app_iff. cbn. tauto.
Qed.

(** X8: the brand selector offers every brand of the listed products once;
    choosing an offered brand (other than the literal [all]) lists exactly
    the products of that brand, and at least one. *)
Theorem brand_selector (products : list Product) :
  NoDup (brands products)
  /\ (forall b, In b (brands products) <-> exists p, In p products /\ p_brand p = b)
  /\ (forall b, In b (brands products) -> b <> "all" ->
        filteredProducts products "" b "all"
        = filter (fun p => (p_brand p =? b)%string) products
        /\ filteredProducts products "" b "all" <> []).
Proof.
  unfold brands, set_values.
  destruct (set_values_step (map p_brand products) []) as [Hn Hin].
  split; [apply Hn; constructor |].
  assert (Hmem : forall b, In b (fold_left (fun seen v => if mem v seen then seen
                                                           else seen ++ [v])
                                           (map p_brand products) [])
                           <-> exists p, In p products /\ p_brand p = b).
  { intro b. rewrite Hin, in_map_iff. split.
    - intros [[] | [p [Hb Hp]]]. exists p. auto.
    - intros [p [Hp Hb]]. right. exists p. auto. }
  split; [exact Hmem |].
  intros b Hb Hall.
  assert (Heq : filteredProducts products "" b "all"
                = filter (fun p => (p_brand p =? b)%string) products).
  { unfold filteredProducts. apply filter_ext. intro p.
    cbn [toLowerCase]. rewrite includes_empty.
    apply String.eqb_neq in Hall. rewrite Hall.
    replace (matchesPrice "all" (p_price p)) with true by reflexivity.
    cbn [orb andb]. apply andb_true_r. }
  split; [exact Heq |].
  rewrite Heq. apply Hmem in Hb as [p [Hp Hpb]].
  intro Hnil.
  assert (Hin' : In p (filter (fun p => (p_brand p =? b)%string) products)).
  { apply filter_In. split; [exact Hp | apply String.eqb_eq; exact Hpb]. }
  rewrite Hnil in Hin'. destruct Hin'.
Qed.

Lemma brand_selector_witness :
  filteredProducts Sample.catalog "" "Nike" "all" = [Sample.nike].
Proof.
  destruct (brand_selector Sample.catalog) as [_ [_ H]].
  destruct (H "Nike") as [Heq _].
  - vm_compute. right; left; reflexivity.
  - discriminate.
  - rewrite Heq. reflexivity.
Defined.

(** X9: [handleAddToCart] reaches the cart store only when a user is signed
    in and a non-empty size is selected for that product; otherwise it sends
    no request, leaves the store alone and shows one notification. *)
Theorem add_to_cart_needs_user_and_size (env : Env) (user : option uuid)
    (selectedSizes : list (uuid * string)) (productId : uuid) (w : World) :
  let w' := snd (handleAddToCart env user selectedSizes productId w) in
  (user = None
   \/ selectedSizes_get selectedSizes productId = None
   \/ selectedSizes_get selectedSizes productId = Some EmptyString ->
   db w' = db w /\ tick w' = tick w
   /\ exists msg, trace w' = trace w ++ [ToastError msg])
  /\ (forall u size, user = Some u ->
        selectedSizes_get selectedSizes productId = Some size ->
        size <> EmptyString ->
        handleAddToCart env user selectedSizes productId w
        = addToCart env user productId size w).
Proof.
  intro w'. subst w'. unfold handleAddToCart. split.
  - intros [-> | [H | H]].
    + cbn. repeat split. eexists; reflexivity.
    + rewrite H. destruct user; cbn; repeat split; eexists; reflexivity.
    + rewrite H. destruct user; cbn; repeat split; eexists; reflexivity.
  - intros u size -> Hsize Hne. rewrite Hsize.
    destruct size; [congruence | reflexivity].
Qed.

Lemma add_to_cart_needs_user_and_size_witness :
  tick (snd (handleAddToCart Sample.reliable (Some Sample.alice) [("p-nb", "9")]
               "p-nike" (start Sample.shop))) = 0%nat
  /\ cart (db (snd (handleAddToCart Sample.reliable (Some Sample.alice)
                      [("p-nb", "9"); ("p-nike", "10")] "p-nike" (start Sample.shop))))
     = [mkCartRow "id-i-" Sample.alice "p-nike" 1 "10"].
Proof.
  split.
  - destruct (add_to_cart_needs_user_and_size Sample.reliable (Some Sample.alice)
                [("p-nb", "9")] "p-nike" (start Sample.shop)) as [H _].
    destruct H as [_ [Ht _]]; [right; left; reflexivity | exact Ht].
  - destruct (add_to_cart_needs_user_and_size Sample.reliable (Some Sample.alice)
                [("p-nb", "9"); ("p-nike", "10")] "p-nike" (start Sample.shop))
      as [_ H].
    rewrite (H Sample.alice "10"); [reflexivity | reflexivity | reflexivity | discriminate].
Defined.

(* ------------------------------------------------------------------ *)
(** ** Newest first *)

Lemma insert_desc_perm {A} (key : A -> Z) x l :
  Permutation (insert_desc key x l) (x :: l).
Proof.
  induction l as [| y l IH]; simpl; [reflexivity |].
  destruct (key y <=? key x); [reflexivity |].
  rewrite IH. apply perm_swap.
Qed.

Lemma order_desc_perm {A} (key : A -> Z) l : Permutation (order_desc key l) l.
Proof.
  induction l as [| x l IH]; simpl; [constructor |].
  rewrite insert_desc_perm. constructor. exact IH.
Qed.

Lemma insert_desc_sorted {A} (key : A -> Z) x l :
  descending key l -> descending key (insert_desc key x l).
Proof.
  unfold descending. induction l as [| y l IH]; intro Hs; simpl.
  - repeat constructor.
  - inversion Hs as [| ? ? Hl Hy]; subst.
    destruct (key y <=? key x) eqn:E.
    + constructor; [exact Hs |]. constructor; [lia |].
      rewrite Forall_forall in *. intros z Hz. specialize (Hy z Hz). lia.
    + constructor; [apply IH; exact Hl |].
      rewrite Forall_forall in *. intros z Hz.
      apply (Permutation_in _ (insert_desc_perm key x l)) in Hz.
      destruct Hz as [<- | Hz]; [lia | auto].
Qed.

Lemma order_desc_sorted {A} (key : A -> Z) l : descending key (order_desc key l).
Proof.
  induction l as [| x l IH]; simpl; [constructor |].
  apply insert_desc_sorted. exact IH.
Qed.

Lemma filter_filter_implied {A} (f g : A -> bool) (l : list A) :
  (forall x, In x l -> f x = true -> g x = true) ->
  filter f (filter g l) = filter f l.
Proof.
  intro H. induction l as [| x l IH]; simpl; [reflexivity |].
  assert (IH' : filter f (filter g l) = filter f l)
    by (apply IH; intros y Hy; apply H; right; exact Hy).
  destruct (f x) eqn:Ef.
  - rewrite (H x (or_introl eq_refl) Ef). simpl. rewrite Ef, IH'. reflexivity.
  - destruct (g x); simpl; rewrite ?Ef; exact IH'.
Qed.

(** X10: the catalog read returns the active products, all of them and
    nothing else, newest first, and the same rows whoever asks,
    administrators included. *)
Theorem catalog_read (caller : option uuid) (s : Store) :
  Permutation (fetchProducts caller s) (filter p_is_active (products s))
  /\ descending p_created_at (fetchProducts caller s)
  /\ fetchProducts caller s = fetchProducts None s.
Proof.
  assert (H : forall c, filter p_is_active (products_select c s)
                        = filter p_is_active (products s)).
  { intro c. unfold products_select. apply filter_filter_implied.
    intros p _ Hp. unfold products_visible. rewrite Hp. reflexivity. }
  unfold fetchProducts. rewrite !H.
  split; [apply order_desc_perm | split; [apply order_desc_sorted | reflexivity]].
Qed.

(* ------------------------------------------------------------------ *)
(** ** More on the order history *)

Lemma own_orders_visible u s :
  filter (fun o => (o_user_id o =? u)%string) (orders_select (Some u) s)
  = filter (fun o => (o_user_id o =? u)%string) (orders s).
Proof.
  unfold orders_select. apply filter_filter_implied.
  intros o _ Ho. cbn [uid_is]. rewrite String.eqb_sym, Ho. reflexivity.
Qed.

Lemma own_lines_visible u s o :
  In o (orders s) -> o_user_id o = u ->
  filter (fun r => (oi_order_id r =? o_id o)%string) (order_items_select (Some u) s)
  = lines_of s (o_id o).
Proof.
  intros Ho Hu. unfold order_items_select, lines_of. apply filter_filter_implied.
  intros r _ Hr. apply String.eqb_eq in Hr.
  assert (Hown : owns_order s (Some u) (oi_order_id r) = true).
  { unfold owns_order. apply existsb_exists. exists o. split; [exact Ho |].
    rewrite Hr, String.eqb_refl. cbn [uid_is andb]. rewrite Hu. apply String.eqb_refl. }
  rewrite Hown. reflexivity.
Qed.

Lemma descending_map {A B} (key : A -> Z) (key' : B -> Z) (f : A -> B) l :
  (forall x, key' (f x) = key x) ->
  descending key l -> descending key' (map f l).
Proof.
  intros Hk Hs. unfold descending in *.
  induction Hs as [| x l Hl IH Hx]; cbn [map]; constructor; [exact IH |].
  rewrite Forall_forall in *. intros y Hy.
  apply in_map_iff in Hy as [x' [<- Hx']]. rewrite !Hk. apply Hx. exact Hx'.
Qed.

(** X11: the order history is exactly the reader's own orders, newest first,
    each with all the lines of that order and no line of another order; the
    policies hide nothing of it, and orders of other owners never appear, also
    for an administrator. *)
Theorem order_history_is_ones_own (u : uuid) (s : Store) :
  let own := filter (fun o => (o_user_id o =? u)%string) (orders s) in
  fetchOrders u s
  = map (fun o => mkOrder (o_id o) (o_total_amount o) (o_status o) (o_created_at o)
                          (map (embed_item (Some u) s) (lines_of s (o_id o))))
        (order_desc o_created_at own)
  /\ Permutation (map order_id (fetchOrders u s)) (map o_id own)
  /\ descending order_created_at (fetchOrders u s).
Proof.
  intro own.
  assert (Heq : fetchOrders u s
                = map (fun o => mkOrder (o_id o) (o_total_amount o) (o_status o)
                                        (o_created_at o)
                                        (map (embed_item (Some u) s)
                                             (lines_of s (o_id o))))
                      (order_desc o_created_at own)).
  { unfold fetchOrders. rewrite own_orders_visible. fold own.
    apply map_ext_in. intros o Ho.
    apply (Permutation_in _ (order_desc_perm o_created_at own)) in Ho.
    apply filter_In in Ho as [Ho Hu]. apply String.eqb_eq in Hu.
    rewrite (own_lines_visible u s o Ho Hu). reflexivity. }
  split; [exact Heq | split].
  - rewrite Heq, map_map. cbn [order_id].
    apply Permutation_map. apply order_desc_perm.
  - rewrite Heq.
    apply (descending_map o_created_at); [reflexivity | apply order_desc_sorted].
Qed.

(* ------------------------------------------------------------------ *)
(** ** More on the administration page *)

Lemma mem_In x l : mem x l = true <-> In x l.
Proof.
  unfold mem. rewrite existsb_exists. split.
  - intros [y [Hy Hxy]]. apply String.eqb_eq in Hxy. subst y. exact Hy.
  - intro H. exists x. split; [exact H | apply String.eqb_refl].
Qed.

Lemma store_eta s :
  mkStore (products s) (cart s) (orders s) (order_items s) (user_roles s) = s.
Proof. destruct s; reflexivity. Qed.

(** The run of [toggleProductStatus] for an administrator whose update is
    not lost. *)
Lemma toggle_run env admin pid b w :
  is_admin (db w) (Some admin) = true ->
  fails env (tick w) = false ->
  exists t,
    toggleProductStatus env (Some admin) pid b w
    = (Ok tt,
       mkWorld (set_products
                  (map (fun p => if (p_id p =? pid)%string
                                 then with_is_active (negb b) p else p)
                       (products (db w))) (db w))
               (S (S (tick w))) t).
Proof.
  intros Hadmin Hnet.
  unfold toggleProductStatus, adminFetchProducts, try_catch, try_catch_finally.
  unfold bind at 1. unfold bind at 1. unfold remote at 1. unfold answer at 1.
  rewrite Hnet. unfold products_update. rewrite Hadmin.
  cbn [throw_if_error ret]. unfold bind at 1. unfold bind at 1. cbn [emit].
  unfold bind, remote, answer. cbn [db tick trace].
  destruct (fails env (S (tick w))); cbn; eexists; reflexivity.
Qed.

(** X12: switching a product's status and switching it back restores the
    product rows, up to their order in the table, and leaves the other tables
    as they were: for an administrator whose two updates are not lost, and a
    product whose rows carry the status the page showed. *)
Theorem toggle_twice_restores (env : Env) (admin : uuid) (pid : uuid)
    (currentStatus : bool) (w : World) :
  is_admin (db w) (Some admin) = true ->
  fails env (tick w) = false ->
  fails env (S (S (tick w))) = false ->
  (forall p, In p (products (db w)) -> p_id p = pid -> p_is_active p = currentStatus) ->
  let s' := db (snd ((toggleProductStatus env (Some admin) pid currentStatus ;;
                      toggleProductStatus env (Some admin) pid (negb currentStatus))%handler
                       w)) in
  Permutation (products s') (products (db w))
  /\ cart s' = cart (db w)
  /\ orders s' = orders (db w)
  /\ order_items s' = order_items (db w)
  /\ user_roles s' = user_roles (db w).
Proof.
  intros Hadmin Hnet0 Hnet2 Hactive s'.
  assert (Hdb : s' = db w).
  { subst s'.
    destruct (toggle_run env admin pid currentStatus w Hadmin Hnet0) as [t1 Hrun1].
    unfold bind at 1. rewrite Hrun1.
    match goal with |- context [toggleProductStatus _ _ _ _ ?w1] =>
      destruct (toggle_run env admin pid (negb currentStatus) w1) as [t2 Hrun2];
        [rewrite <- Hadmin; apply is_admin_roles; reflexivity | exact Hnet2 |]
    end.
    rewrite Hrun2. cbn [snd db products set_products]. rewrite map_map.
    unfold set_products. cbn [cart orders order_items user_roles].
    rewrite <- (store_eta (db w)) at 6. f_equal.
    rewrite <- (map_id (products (db w))) at 2.
    apply map_ext_in. intros p Hp.
    destruct (p_id p =? pid)%string eqn:E.
    - cbn [p_id with_is_active]. rewrite E.
      apply String.eqb_eq in E. specialize (Hactive p Hp E).
      rewrite negb_involutive, <- Hactive. destruct p; reflexivity.
    - rewrite E. reflexivity. }
  rewrite Hdb. repeat split. apply Permutation_refl.
Qed.

Lemma toggle_twice_restores_witness :
  let s' := db (snd ((toggleProductStatus Sample.reliable (Some Sample.root) "p-nike" true ;;
                      toggleProductStatus Sample.reliable (Some Sample.root) "p-nike"
                        false)%handler
                       (start Sample.shop_history))) in
  Permutation (products s') Sample.catalog
  /\ orders s' = orders Sample.shop_history.
Proof.
  destruct (toggle_twice_restores Sample.reliable Sample.root "p-nike" true
              (start Sample.shop_history))
    as [Hproducts [_ [Horders _]]];
    [reflexivity | reflexivity | reflexivity | |].
  - intros p Hp Hid. simpl in Hp.
    repeat destruct Hp as [Hp | Hp]; try (subst p; reflexivity); destruct Hp.
  - split; [exact Hproducts | exact Horders].
Defined.

(** *** Deleting a product *)

Lemma delete_run env admin productId w :
  is_admin (db w) (Some admin) = true ->
  fails env (tick w) = false ->
  exists rest,
    handleDelete env (Some admin) productId w
    = if mem productId (map p_id (products (db w)))
         && existsb (fun r => (oi_product_id r =? productId)%string)
                    (order_items (db w))
      then (Ok tt, mkWorld (db w) (S (tick w))
                     (trace w ++ [ConsoleError "Error deleting product:"
                                               ForeignKeyViolation;
                                  ToastError "Failed to delete product"]))
      else (Ok tt, mkWorld (without_product productId (db w)) (S (S (tick w)))
                     (trace w ++ ToastSuccess "Product deleted successfully" :: rest)).
Proof.
  intros Hadmin Hnet.
  unfold handleDelete, adminFetchProducts, try_catch, try_catch_finally.
  unfold bind at 1. unfold bind at 1. unfold request at 1. unfold answer at 1.
  rewrite Hnet. unfold products_delete. rewrite Hadmin.
  destruct (mem productId (map p_id (products (db w)))
            && existsb (fun r => (oi_product_id r =? productId)%string)
                       (order_items (db w))).
  - exists []. cbn. rewrite <- ?app_assoc. reflexivity.
  - cbn [throw_if_error ret]. unfold bind at 1. unfold bind at 1. cbn [emit].
    unfold bind, remote, answer. cbn [db tick trace].
    destruct (fails env (S (tick w))); cbn; eexists; rewrite <- ?app_assoc;
      cbn; reflexivity.
Qed.

(** X13: deleting a product, for an administrator whose request is not lost.
    A product that an order line references is not deleted: the store is
    unchanged and the failure is logged and notified.  Otherwise the product
    is gone together with the cart lines that referenced it, orders and order
    lines are untouched, and success is notified. *)
Theorem delete_outcome (env : Env) (admin : uuid) (productId : uuid) (w : World) :
  is_admin (db w) (Some admin) = true ->
  fails env (tick w) = false ->
  let w' := snd (handleDelete env (Some admin) productId w) in
  if mem productId (map p_id (products (db w)))
     && existsb (fun r => (oi_product_id r =? productId)%string) (order_items (db w))
  then db w' = db w
       /\ trace w' = trace w ++ [ConsoleError "Error deleting product:" ForeignKeyViolation;
                                 ToastError "Failed to delete product"]
  else (forall p, In p (products (db w')) <-> In p (products (db w)) /\ p_id p <> productId)
       /\ (forall c, In c (cart (db w')) <-> In c (cart (db w)) /\ c_product_id c <> productId)
       /\ orders (db w') = orders (db w)
       /\ order_items (db w') = order_items (db w)
       /\ exists rest, trace w' = trace w ++ ToastSuccess "Product deleted successfully" :: rest.
Proof.
  intros Hadmin Hnet w'. subst w'.
  destruct (delete_run env admin productId w Hadmin Hnet) as [rest Hrun].
  rewrite Hrun.
  destruct (mem productId (map p_id (products (db w)))
            && existsb (fun r => (oi_product_id r =? productId)%string)
                       (order_items (db w))).
  - split; reflexivity.
  - assert (Hneg : forall a b : string, negb (a =? b)%string = true <-> a <> b).
    { intros a b. rewrite negb_true_iff. apply String.eqb_neq. }
    cbn [snd db trace without_product products cart orders order_items
         set_cart set_products].
    split; [intro p; rewrite filter_In, Hneg; reflexivity |].
    split; [intro c; rewrite filter_In, Hneg; reflexivity |].
    split; [reflexivity |]. split; [reflexivity |].
    exists rest. reflexivity.
Qed.

Lemma delete_outcome_witness :
  db (snd (handleDelete Sample.reliable (Some Sample.root) "p-nike"
             (start Sample.shop_history)))
  = Sample.shop_history
  /\ cart (db (snd (handleDelete Sample.reliable (Some Sample.root) "p-nike"
                      (start Sample.shop_with_cart))))
     = [].
Proof.
  pose proof (delete_outcome Sample.reliable Sample.root "p-nike"
                (start Sample.shop_history) eq_refl eq_refl) as Hblocked.
  pose proof (delete_outcome Sample.reliable Sample.root "p-nike"
                (start Sample.shop_with_cart) eq_refl eq_refl) as Hdone.
  cbv zeta in Hblocked, Hdone.
  change (mem "p-nike" (map p_id (products (db (start Sample.shop_history))))
          && existsb (fun r => (oi_product_id r =? "p-nike")%string)
                     (order_items (db (start Sample.shop_history))))
    with true in Hblocked.
  change (mem "p-nike" (map p_id (products (db (start Sample.shop_with_cart))))
          && existsb (fun r => (oi_product_id r =? "p-nike")%string)
                     (order_items (db (start Sample.shop_with_cart))))
    with false in Hdone.
  cbv iota in Hblocked, Hdone.
  split; [exact (proj1 Hblocked) |].
  destruct Hdone as [_ [Hcart _]].
  destruct (cart (db (snd (handleDelete Sample.reliable (Some Sample.root) "p-nike"
                             (start Sample.shop_with_cart))))) as [| c rest];
    [reflexivity |].
  exfalso. destruct (proj1 (Hcart c) (or_introl eq_refl)) as [Hin Hne].
  simpl in Hin. destruct Hin as [<- | []]. apply Hne. reflexivity.
Defined.

(** *** References to products *)

Lemma keeps_references_refl s : keeps_references s s.
Proof. intro H; exact H. Qed.

Lemma keeps_references_trans a b c :
  keeps_references a b -> keeps_references b c -> keeps_references a c.
Proof. unfold keeps_references; auto. Qed.

Lemma products_update_references caller pid patch s a s' :
  (forall p, p_id (patch p) = p_id p) ->
  products_update caller pid patch s = Data (a, s') -> keeps_references s s'.
Proof.
  unfold products_update. intros Hid H Href.
  destruct (is_admin s caller); inversion H; subst; [| exact Href].
  assert (Hids : map p_id (map (fun p => if (p_id p =? pid)%string then patch p else p)
                               (products s)) = map p_id (products s)).
  { rewrite map_map. apply map_ext. intro p.
    destruct (p_id p =? pid)%string; [apply Hid | reflexivity]. }
  unfold references_products. cbn [products cart order_items set_products].
  rewrite Hids. exact Href.
Qed.

Lemma orders_insert_references caller id ts u amount status s a s' :
  orders_insert caller id ts u amount status s = Data (a, s') -> keeps_references s s'.
Proof.
  unfold orders_insert.
  destruct (negb (fits_decimal_10_2 amount)); [discriminate |].
  destruct (negb (uid_is caller u)); [discriminate |].
  destruct (mem id (map o_id (orders s))); [discriminate |].
  intros H Href; inversion H; subst. exact Href.
Qed.

Lemma stamp_product gen rows i r :
  In r (stamp gen i rows) -> exists n, In n rows /\ oi_product_id r = n_product_id n.
Proof.
  revert i. induction rows as [| n rows IH]; intros i H; simpl in H; [destruct H |].
  destruct H as [<- | H].
  - exists n. split; [left; reflexivity | reflexivity].
  - destruct (IH _ H) as [n' [Hn' Hp]]. exists n'. split; [right; exact Hn' | exact Hp].
Qed.

Lemma order_items_insert_references caller gen rows s a s' :
  order_items_insert caller gen rows s = Data (a, s') -> keeps_references s s'.
Proof.
  unfold order_items_insert.
  destruct (negb (forallb (fun r => fits_decimal_10_2 (n_price r)) rows));
    [discriminate |].
  destruct (negb (forallb (fun r => owns_order s caller (n_order_id r)) rows));
    [discriminate |].
  destruct (forallb (fun r => mem (n_product_id r) (map p_id (products s))) rows)
    eqn:Hfk; [| discriminate].
  cbn [negb].
  destruct (negb _); [discriminate |].
  intros H [Hc Hl]; inversion H; subst. split; [exact Hc |].
  cbn [order_items products set_order_items]. intros r Hr.
  apply in_app_or in Hr as [Hr | Hr]; [exact (Hl r Hr) |].
  apply stamp_product in Hr as [n [Hn ->]].
  rewrite forallb_forall in Hfk. exact (Hfk n Hn).
Qed.

Lemma cart_delete_references caller pred s a s' :
  cart_delete caller pred s = Data (a, s') -> keeps_references s s'.
Proof.
  unfold cart_delete. intros H [Hc Hl]; inversion H; subst. split; [| exact Hl].
  cbn [cart products set_cart]. intros c Hin. apply filter_In in Hin as [Hin _].
  exact (Hc c Hin).
Qed.

Lemma mem_filter_other x pid (l : list Product) :
  x <> pid ->
  mem x (map p_id l) = true ->
  mem x (map p_id (filter (fun p => negb (p_id p =? pid)%string) l)) = true.
Proof.
  intros Hne H. apply mem_In in H. apply mem_In.
  apply in_map_iff in H as [p [Hp Hin]]. apply in_map_iff. exists p.
  split; [exact Hp |]. apply filter_In. split; [exact Hin |].
  apply negb_true_iff, String.eqb_neq. congruence.
Qed.

Lemma products_delete_references caller pid s a s' :
  products_delete caller pid s = Data (a, s') -> keeps_references s s'.
Proof.
  unfold products_delete. intros H [Hc Hl].
  destruct (is_admin s caller); [| inversion H; subst; split; assumption].
  destruct (mem pid (map p_id (products s))
            && existsb (fun r => (oi_product_id r =? pid)%string) (order_items s))
    eqn:Hblock; [discriminate |].
  inversion H; subst. split; cbn [cart products order_items set_cart set_products].
  - intros c Hin. apply filter_In in Hin as [Hin Hne].
    apply negb_true_iff, String.eqb_neq in Hne.
    apply mem_filter_other; [exact Hne | exact (Hc c Hin)].
  - intros r Hin. apply mem_filter_other; [| exact (Hl r Hin)].
    intro Heq. apply andb_false_iff in Hblock as [Hm | He].
    + specialize (Hl r Hin). rewrite Heq in Hl. congruence.
    + assert (existsb (fun r => (oi_product_id r =? pid)%string) (order_items s) = true).
      { apply existsb_exists. exists r. split; [exact Hin |].
        apply String.eqb_eq. exact Heq. }
      congruence.
Qed.

Ltac references_steps :=
  step_keeps (on_store_refl _ keeps_references_refl)
             (on_store_trans _ keeps_references_trans)
    ltac:(first
      [ apply (on_store_emit _ keeps_references_refl)
      | apply (on_store_remote _ keeps_references_refl keeps_references_trans);
        intros;
        first [ eapply products_update_references; [| eassumption]; reflexivity
              | eapply orders_insert_references; eassumption
              | eapply order_items_insert_references; eassumption
              | eapply cart_delete_references; eassumption
              | match goal with H : Data _ = Data _ |- _ =>
                  inversion H; subst; apply keeps_references_refl end ]
      | apply (on_store_request _ keeps_references_refl);
        intros; eapply products_delete_references; eassumption ]).

(** X14: if every cart line and every order line references a stored
    product, this still holds after [handleDelete], [toggleProductStatus] and
    [handlePlaceOrder], for every caller and whatever requests are lost. *)
Theorem handlers_keep_references (env : Env) (user : option uuid) (w : World) :
  references_products (db w) ->
  (forall productId,
     references_products (db (snd (handleDelete env user productId w))))
  /\ (forall productId currentStatus,
        references_products
          (db (snd (toggleProductStatus env user productId currentStatus w))))
  /\ (forall cartItems,
        references_products (db (snd (handlePlaceOrder env user cartItems w)))).
Proof.
  intro Href. split; [| split].
  - intro productId.
    assert (H : keeps (on_store keeps_references) (handleDelete env user productId))
      by (unfold handleDelete, adminFetchProducts; references_steps).
    exact (H w Href).
  - intros productId currentStatus.
    assert (H : keeps (on_store keeps_references)
                      (toggleProductStatus env user productId currentStatus))
      by (unfold toggleProductStatus, adminFetchProducts; references_steps).
    exact (H w Href).
  - intro cartItems.
    assert (H : keeps (on_store keeps_references)
                      (handlePlaceOrder env user cartItems)).
    { unfold handlePlaceOrder, updateStock, clearCart.
      destruct user as [u |]; [| intros w0 H0; exact H0].
      destruct (List.length cartItems =? 0)%nat; [intros w0 H0; exact H0 |].
      references_steps. }
    exact (H w Href).
Qed.

Lemma handlers_keep_references_witness :
  references_products
    (db (snd (handleDelete Sample.reliable (Some Sample.root) "p-nike"
                (start Sample.shop_with_cart)))).
Proof.
  destruct (handlers_keep_references Sample.reliable (Some Sample.root)
              (start Sample.shop_with_cart)) as [Hdelete _].
  - split.
    + intros c Hc. simpl in Hc. destruct Hc as [<- | []]. reflexivity.
    + intros r [].
  - apply Hdelete.
Defined.

(* ------------------------------------------------------------------ *)
(** ** The analytics series *)

Lemma sum_counts_cons kv l : sum_counts (kv :: l) = d_count (snd kv) + sum_counts l.
Proof. reflexivity. Qed.

Lemma sum_revenue_cons kv l : sum_revenue (kv :: l) = d_revenue (snd kv) + sum_revenue l.
Proof. reflexivity. Qed.

Lemma series_get_none key series :
  series_get key series = None <-> ~ In key (map fst series).
Proof.
  unfold series_get. induction series as [| [k v] rest IH]; simpl.
  - split; [intros _ [] | reflexivity].
  - destruct (k =? key)%string eqn:E.
    + apply String.eqb_eq in E. split; [discriminate | intro H; exfalso; auto].
    + apply String.eqb_neq in E. rewrite IH. split.
      * intros H [Hk | Hin]; auto.
      * intros H Hin. apply H. right. exact Hin.
Qed.

Lemma series_set_new key v series :
  series_get key series = None -> series_set key v series = series ++ [(key, v)].
Proof.
  unfold series_get. induction series as [| [k old] rest IH]; simpl; [reflexivity |].
  destruct (k =? key)%string; [discriminate |].
  intro H. rewrite IH by exact H. reflexivity.
Qed.

Lemma series_set_old key v old series :
  series_get key series = Some old ->
  map fst (series_set key v series) = map fst series
  /\ sum_counts (series_set key v series) = sum_counts series - d_count old + d_count v
  /\ sum_revenue (series_set key v series)
     = sum_revenue series - d_revenue old + d_revenue v.
Proof.
  unfold series_get. induction series as [| [k o] rest IH]; [discriminate |].
  cbn [find fst series_set]. destruct (k =? key)%string eqn:E.
  - intro H. inversion H; subst.
    rewrite !sum_counts_cons, !sum_revenue_cons. cbn [map fst snd].
    repeat split; lia.
  - intro H. destruct (IH H) as [Hk [Hc Hr]].
    rewrite !sum_counts_cons, !sum_revenue_cons. cbn [map fst snd].
    rewrite Hk, Hc, Hr. repeat split; lia.
Qed.

Lemma sum_counts_app a b : sum_counts (a ++ b) = sum_counts a + sum_counts b.
Proof.
  induction a as [| x a IH]; [reflexivity |].
  cbn [app]. rewrite !sum_counts_cons, IH. lia.
Qed.

Lemma sum_revenue_app a b : sum_revenue (a ++ b) = sum_revenue a + sum_revenue b.
Proof.
  induction a as [| x a IH]; [reflexivity |].
  cbn [app]. rewrite !sum_revenue_cons, IH. lia.
Qed.

Lemma series_get_set key v series :
  series_get key (series_set key v series) = Some v.
Proof.
  unfold series_get. induction series as [| [k o] rest IH]; cbn [series_set].
  - cbn. rewrite String.eqb_refl. reflexivity.
  - destruct (k =? key)%string eqn:E; cbn [find fst]; rewrite E; [reflexivity | exact IH].
Qed.

Lemma series_get_some key series :
  In key (map fst series) -> exists v, series_get key series = Some v.
Proof.
  intro H. destruct (series_get key series) as [v |] eqn:E; [eauto |].
  apply series_get_none in E. contradiction.
Qed.

(** Writing a day's totals: the keys stay distinct, the day is there, the
    other days are as they were, and the sums move by the difference. *)
Lemma series_set_effect key v series :
  NoDup (map fst series) ->
  let old := match series_get key series with Some o => o | None => mkDayTotals 0 0 end in
  NoDup (map fst (series_set key v series))
  /\ (forall k, In k (map fst (series_set key v series))
                <-> k = key \/ In k (map fst series))
  /\ sum_counts (series_set key v series) = sum_counts series - d_count old + d_count v
  /\ sum_revenue (series_set key v series)
     = sum_revenue series - d_revenue old + d_revenue v.
Proof.
  intros Hnd old. subst old. destruct (series_get key series) as [o |] eqn:Hget.
  - destruct (series_set_old key v o series Hget) as [Hk [Hc Hr]].
    rewrite Hk. split; [exact Hnd |]. split; [| split; assumption].
    intro k. split; [auto |]. intros [-> | H]; [| exact H].
    destruct (in_dec string_dec key (map fst series)) as [Hin | Hout]; [exact Hin |].
    apply series_get_none in Hout. congruence.
  - rewrite (series_set_new _ _ _ Hget), map_app, sum_counts_app, sum_revenue_app.
    cbn [map fst]. rewrite !sum_counts_cons, !sum_revenue_cons. cbn.
    split; [| split; [| split; lia]].
    + apply NoDup_app; [exact Hnd | repeat constructor; intros [] |].
      intros k Hk [<- | []]. apply series_get_none in Hget. exact (Hget Hk).
    + intro k. rewrite in_app_iff. cbn. split; [intros [H | [H | []]]; auto | ].
      intros [-> | H]; auto.
Qed.

Lemma empty_series_from window :
  forall series,
    NoDup (map fst series) ->
    (forall kv, In kv series -> snd kv = mkDayTotals 0 0) ->
    let result := fold_left (fun series key => series_set key (mkDayTotals 0 0) series)
                            window series in
    NoDup (map fst result)
    /\ sum_counts result = sum_counts series
    /\ sum_revenue result = sum_revenue series
    /\ (forall kv, In kv result -> snd kv = mkDayTotals 0 0)
    /\ (forall k, In k (map fst result) <-> In k (map fst series) \/ In k window).
Proof.
  induction window as [| key window IH]; intros series Hnd Hzero; cbn [fold_left].
  - repeat split; auto. + intros [H | []]; exact H.
  - destruct (series_set_effect key (mkDayTotals 0 0) series Hnd)
      as [Hnd' [Hkeys [Hc Hr]]].
    assert (Hold : match series_get key series with
                   | Some o => o | None => mkDayTotals 0 0 end = mkDayTotals 0 0).
    { destruct (series_get key series) as [o |] eqn:Hget; [| reflexivity].
      unfold series_get in Hget.
      destruct (find _ series) as [kv |] eqn:Hf; [| discriminate].
      inversion Hget; subst. apply find_some in Hf as [Hin _]. exact (Hzero kv Hin). }
    rewrite Hold in Hc, Hr. cbn in Hc, Hr.
    assert (Hzero' : forall kv, In kv (series_set key (mkDayTotals 0 0) series) ->
                                snd kv = mkDayTotals 0 0).
    { clear - Hzero. induction series as [| [k o] rest IHs]; cbn [series_set].
      - intros kv [<- | []]. reflexivity.
      - destruct (k =? key)%string.
        + intros kv [<- | H]; [reflexivity | apply Hzero; right; exact H].
        + intros kv [<- | H]; [apply (Hzero (k, o)); left; reflexivity |].
          apply IHs; [| exact H]. intros kv' H'. apply Hzero. right. exact H'. }
    destruct (IH _ Hnd' Hzero') as [Hn [Hc2 [Hr2 [Hz Hk]]]].
    split; [exact Hn |]. split; [lia |]. split; [lia |]. split; [exact Hz |].
    intro k. rewrite Hk, Hkeys. cbn [In]. split.
    + intros [[-> | H] | H]; auto.
    + intros [H | [<- | H]]; auto.
Qed.

Lemma count_order_effect day series o :
  NoDup (map fst series) ->
  NoDup (map fst (count_order day series o))
  /\ sum_counts (count_order day series o) = sum_counts series + 1
  /\ sum_revenue (count_order day series o) = sum_revenue series + o_total_amount o
  /\ (forall k, In k (map fst (count_order day series o))
                <-> k = day (o_created_at o) \/ In k (map fst series)).
Proof.
  intro Hnd. unfold count_order.
  set (key := day (o_created_at o)).
  destruct (series_get key series) as [v |] eqn:Hget.
  - rewrite Hget.
    destruct (series_set_effect key (mkDayTotals (d_count v + 1)
                                                 (d_revenue v + o_total_amount o))
                                series Hnd) as [Hn [Hk [Hc Hr]]].
    rewrite Hget in Hc, Hr. cbn [d_count d_revenue] in Hc, Hr.
    repeat split; try assumption; try lia; apply Hk.
  - destruct (series_set_effect key (mkDayTotals 0 0) series Hnd)
      as [Hn1 [Hk1 [Hc1 Hr1]]].
    rewrite Hget in Hc1, Hr1. cbn [d_count d_revenue] in Hc1, Hr1.
    set (series1 := series_set key (mkDayTotals 0 0) series) in *.
    assert (Hin : In key (map fst series1)) by (apply Hk1; left; reflexivity).
    destruct (series_get_some _ _ Hin) as [v Hv]. rewrite Hv.
    assert (Hv0 : v = mkDayTotals 0 0).
    { unfold series1 in Hv. rewrite series_get_set in Hv.
      inversion Hv. reflexivity. }
    destruct (series_set_effect key (mkDayTotals (d_count v + 1)
                                                 (d_revenue v + o_total_amount o))
                                series1 Hn1) as [Hn [Hk [Hc Hr]]].
    rewrite Hv in Hc, Hr. subst v. cbn [d_count d_revenue] in *.
    repeat split; try assumption; try lia.
    + intro H. apply Hk in H as [H | H]; [left; exact H |]. apply Hk1 in H. exact H.
    + intro H. apply Hk. destruct H as [H | H]; [left; exact H |].
      right. apply Hk1. right. exact H.
Qed.

Lemma analytics_from day ordersData :
  forall series,
    NoDup (map fst series) ->
    let result := fold_left (count_order day) ordersData series in
    NoDup (map fst result)
    /\ sum_counts result = sum_counts series + Z.of_nat (List.length ordersData)
    /\ sum_revenue result = sum_revenue series + sum_amounts ordersData
    /\ (forall k, In k (map fst result)
                  <-> In k (map fst series)
                      \/ In k (map (fun o => day (o_created_at o)) ordersData)).
Proof.
  induction ordersData as [| o rows IH]; intros series Hnd; cbn [fold_left].
  - cbn. repeat split; try lia; auto. intros [H | []]; exact H.
  - destruct (count_order_effect day series o Hnd) as [Hn [Hc [Hr Hk]]].
    destruct (IH _ Hn) as [Hn2 [Hc2 [Hr2 Hk2]]].
    split; [exact Hn2 |]. split; [| split].
    + rewrite Hc2, Hc. cbn [List.length]. lia.
    + rewrite Hr2, Hr. cbn [sum_amounts fold_right]. fold (sum_amounts rows). lia.
    + intro k. rewrite Hk2, Hk. cbn [map In]. split.
      * intros [[H | H] | H]; auto.
      * intros [H | [H | H]]; auto.
Qed.

(** X15: the analytics series counts every fetched order once and every
    amount once: the daily counts add up to the number of orders and the daily
    revenues to the sum of their totals; each day appears once, the days are
    those of the window together with the days of the orders, and both charts
    carry the same days. *)
Theorem analytics_conserve_orders (day : Z -> string) (window : list string)
    (ordersData : list OrderRow) :
  let series := analyticsSeries day window ordersData in
  NoDup (map fst series)
  /\ sum_counts series = Z.of_nat (List.length ordersData)
  /\ sum_revenue series = sum_amounts ordersData
  /\ (forall k, In k (map fst series)
                <-> In k window \/ In k (map (fun o => day (o_created_at o)) ordersData))
  /\ map fst (ordersByDay series) = map fst series
  /\ map fst (revenueByDay series) = map fst series.
Proof.
  intro series. subst series. unfold analyticsSeries, empty_series.
  destruct (empty_series_from window [] (NoDup_nil _) (fun kv (H : In kv []) =>
              match H with end)) as [Hn [Hc [Hr [_ Hk]]]].
  destruct (analytics_from day ordersData _ Hn) as [Hn2 [Hc2 [Hr2 Hk2]]].
  split; [exact Hn2 |]. split; [rewrite Hc2, Hc; reflexivity |].
  split; [rewrite Hr2, Hr; reflexivity |]. split.
  - intro k. rewrite Hk2, Hk. cbn [map In]. tauto.
  - unfold ordersByDay, revenueByDay. rewrite !map_map. split; reflexivity.
Qed.

(* ------------------------------------------------------------------ *)
(** ** The sizes field of the product form *)

Lemma split_nonempty sep s : split sep s <> [].
Proof.
  destruct s as [| c s]; cbn; [discriminate |].
  destruct (Ascii.eqb c sep); [discriminate |].
  destruct (split sep s); discriminate.
Qed.

Lemma split_plain sep x : has_char sep x = false -> split sep x = [x].
Proof.
  induction x as [| c x IH]; cbn; [reflexivity |].
  intro H. apply orb_false_iff in H as [Hc Hx].
  rewrite Hc, (IH Hx). reflexivity.
Qed.

Lemma split_append sep x r :
  has_char sep x = false ->
  split sep (String.append x (String sep r)) = x :: split sep r.
Proof.
  induction x as [| c x IH]; cbn [String.append split has_char].
  - intros _. rewrite Ascii.eqb_refl. reflexivity.
  - intro H. apply orb_false_iff in H as [Hc Hx].
    rewrite Hc, (IH Hx). reflexivity.
Qed.

Lemma trim_after_space s : trim (String " " s) = trim s.
Proof. reflexivity. Qed.

Lemma split_after_space sep s :
  Ascii.eqb " " sep = false ->
  map trim (split sep (String " " s)) = map trim (split sep s).
Proof.
  intro Hsep. cbn [split]. rewrite Hsep.
  destruct (split sep s) as [| piece pieces] eqn:E.
  - exfalso. exact (split_nonempty sep s E).
  - cbn [map]. rewrite trim_after_space. reflexivity.
Qed.

Lemma trimEnd_cons c s :
  trimEnd (String c s)
  = match trimEnd s with
    | EmptyString => if is_space c then EmptyString else String c EmptyString
    | rest => String c rest
    end.
Proof. reflexivity. Qed.

Lemma trimEnd_idempotent s : trimEnd (trimEnd s) = trimEnd s.
Proof.
  induction s as [| c s IH]; [reflexivity |].
  rewrite trimEnd_cons. destruct (trimEnd s) as [| d rest] eqn:E.
  - destruct (is_space c) eqn:Hc; [reflexivity |].
    rewrite trimEnd_cons. cbn [trimEnd]. rewrite Hc. reflexivity.
  - rewrite trimEnd_cons, IH. reflexivity.
Qed.

Lemma trimStart_head s :
  trimStart s = EmptyString
  \/ exists c rest, trimStart s = String c rest /\ is_space c = false.
Proof.
  induction s as [| c s IH]; [left; reflexivity |].
  cbn [trimStart]. destruct (is_space c) eqn:Hc; [exact IH |].
  right. exists c, s. split; [reflexivity | exact Hc].
Qed.

Lemma trimEnd_head c rest :
  is_space c = false -> exists rest', trimEnd (String c rest) = String c rest'.
Proof.
  intro Hc. cbn [trimEnd]. destruct (trimEnd rest); [rewrite Hc |]; eexists; reflexivity.
Qed.

Lemma trim_idempotent s : trim (trim s) = trim s.
Proof.
  unfold trim. destruct (trimStart_head s) as [-> | [c [rest [-> Hc]]]]; [reflexivity |].
  destruct (trimEnd_head c rest Hc) as [rest' Hrest]. rewrite Hrest.
  cbn [trimStart]. rewrite Hc, <- Hrest. apply trimEnd_idempotent.
Qed.

Lemma has_char_trimStart sep s : has_char sep s = false -> has_char sep (trimStart s) = false.
Proof.
  induction s as [| c s IH]; [reflexivity |].
  cbn [trimStart has_char]. intro H.
  destruct (is_space c); [| exact H].
  apply orb_false_iff in H as [_ H]. exact (IH H).
Qed.

Lemma has_char_trimEnd sep s : has_char sep s = false -> has_char sep (trimEnd s) = false.
Proof.
  induction s as [| c s IH]; [reflexivity |].
  cbn [trimEnd has_char]. intro H. apply orb_false_iff in H as [Hc Hs].
  specialize (IH Hs). destruct (trimEnd s) as [| d rest].
  - destruct (is_space c); cbn [has_char]; [reflexivity |]. rewrite Hc. reflexivity.
  - cbn [has_char] in *. rewrite Hc. exact IH.
Qed.

Lemma split_pieces_plain sep s x :
  In x (split sep s) -> has_char sep x = false.
Proof.
  revert x. induction s as [| c s IH]; intros x H; cbn [split] in H.
  - destruct H as [<- | []]. reflexivity.
  - destruct (Ascii.eqb c sep) eqn:Hc.
    + destruct H as [<- | H]; [reflexivity | exact (IH x H)].
    + destruct (split sep s) as [| piece pieces]; [destruct H as [<- | []] |].
      * cbn. rewrite Hc. reflexivity.
      * destruct H as [<- | H].
        -- cbn [has_char]. rewrite Hc. apply IH. left. reflexivity.
        -- apply IH. right. exact H.
Qed.

Lemma join_cons sep x y l :
  join sep (x :: y :: l) = String.append x (String.append sep (join sep (y :: l))).
Proof. reflexivity. Qed.

Lemma ascii_only_trimStart s : ascii_only s = true -> ascii_only (trimStart s) = true.
Proof.
  induction s as [| c s IH]; [reflexivity |].
  cbn [trimStart]. intro H. destruct (is_space c); [| exact H].
  cbn [ascii_only] in H. apply andb_true_iff in H as [_ H]. exact (IH H).
Qed.

Lemma ascii_only_trimEnd s : ascii_only s = true -> ascii_only (trimEnd s) = true.
Proof.
  induction s as [| c s IH]; [reflexivity |].
  cbn [ascii_only]. intro H. apply andb_true_iff in H as [Hc Hs].
  rewrite trimEnd_cons. specialize (IH Hs). destruct (trimEnd s) as [| d rest].
  - destruct (is_space c); cbn [ascii_only]; [reflexivity |]. rewrite Hc. reflexivity.
  - cbn [ascii_only] in *. rewrite Hc. exact IH.
Qed.

Lemma split_pieces_ascii sep s x :
  ascii_only s = true -> In x (split sep s) -> ascii_only x = true.
Proof.
  revert x. induction s as [| c s IH]; intros x Hs H; cbn [split] in H.
  - destruct H as [<- | []]. reflexivity.
  - cbn [ascii_only] in Hs. apply andb_true_iff in Hs as [Hc Hs].
    destruct (Ascii.eqb c sep).
    + destruct H as [<- | H]; [reflexivity | exact (IH x Hs H)].
    + destruct (split sep s) as [| piece pieces]; [destruct H as [<- | []] |].
      * cbn [ascii_only]. rewrite Hc. reflexivity.
      * destruct H as [<- | H].
        -- cbn [ascii_only]. rewrite Hc. apply (IH piece Hs). left. reflexivity.
        -- apply (IH x Hs). right. exact H.
Qed.

Lemma sizes_round_trip_cons x sizes :
  plain_size x -> Forall plain_size sizes ->
  sizes_of_form (form_of_sizes (x :: sizes)) = x :: sizes.
Proof.
  revert x. induction sizes as [| y sizes IH]; intros x [_ [Hx Htx]] Hs.
  - unfold sizes_of_form, form_of_sizes. cbn [join].
    rewrite (split_plain _ _ Hx). cbn [map]. rewrite Htx. reflexivity.
  - inversion Hs as [| ? ? Hy Hs']; subst.
    unfold sizes_of_form, form_of_sizes in *. rewrite join_cons.
    change (String.append ", " (join ", " (y :: sizes)))
      with (String "," (String " " (join ", " (y :: sizes)))).
    rewrite (split_append _ _ _ Hx). cbn [map]. rewrite Htx.
    rewrite split_after_space by reflexivity.
    rewrite (IH y Hy Hs'). reflexivity.
Qed.

(** X16: the sizes field of the product form, for ASCII text.  Joining a
    non-empty list of sizes for editing and splitting it on save gives the
    list back, when the sizes are ASCII and none contains a comma or has
    white space around it; whatever ASCII text was typed, the saved sizes are
    of that kind, so editing and saving again without touching the field
    leaves them as they are.  An empty list does not come back: it is saved
    as one empty size. *)
Theorem sizes_round_trip (sizes : list string) (typed : string) :
  (sizes <> [] -> Forall plain_size sizes ->
   sizes_of_form (form_of_sizes sizes) = sizes)
  /\ sizes_of_form (form_of_sizes []) = [EmptyString]
  /\ (ascii_only typed = true ->
      Forall plain_size (sizes_of_form typed)
      /\ sizes_of_form (form_of_sizes (sizes_of_form typed)) = sizes_of_form typed).
Proof.
  split; [| split; [reflexivity |]].
  - intros Hne Hs. destruct sizes as [| x sizes]; [congruence |].
    inversion Hs; subst. apply sizes_round_trip_cons; assumption.
  - intro Htyped.
    assert (Hplain : Forall plain_size (sizes_of_form typed)).
    { unfold sizes_of_form. apply Forall_forall. intros x Hx.
      apply in_map_iff in Hx as [piece [<- Hpiece]].
      split; [| split; [| apply trim_idempotent]].
      - unfold trim. apply ascii_only_trimEnd, ascii_only_trimStart.
        exact (split_pieces_ascii _ _ _ Htyped Hpiece).
      - unfold trim. apply has_char_trimEnd, has_char_trimStart.
        exact (split_pieces_plain _ _ _ Hpiece). }
    split; [exact Hplain |].
    destruct (sizes_of_form typed) as [| x rest] eqn:E.
    + exfalso. unfold sizes_of_form in E. apply map_eq_nil in E.
      exact (split_nonempty _ _ E).
    + inversion Hplain; subst. apply sizes_round_trip_cons; assumption.
Qed.

Lemma sizes_round_trip_witness :
  sizes_of_form (form_of_sizes ["7"; "8"; "9"; "10"; "11"]) = ["7"; "8"; "9"; "10"; "11"]
  /\ sizes_of_form " 7,8 ,, 9" = ["7"; "8"; ""; "9"]
  /\ sizes_of_form (form_of_sizes (sizes_of_form " 7,8 ,, 9")) = ["7"; "8"; ""; "9"].
Proof.
  destruct (sizes_round_trip ["7"; "8"; "9"; "10"; "11"] " 7,8 ,, 9") as [H [_ H']].
  split; [| split; [reflexivity |]].
  - apply H; [discriminate |]. repeat constructor.
  - destruct H' as [_ Hagain]; [reflexivity |]. exact Hagain.
Defined.

(* ------------------------------------------------------------------ *)
(** ** Deactivation and the order history *)

(** X17: when an administrator deactivates a product (the update is not
    lost), the product leaves every catalog read, and every order and order
    line stays in every owner's history with its own columns; the embedded
    name and image stay as they were for lines of other products and for
    readers with the administrator role. *)
Theorem deactivation_keeps_history (env : Env) (admin : uuid) (pid : uuid) (w : World) :
  is_admin (db w) (Some admin) = true ->
  fails env (tick w) = false ->
  let s := db w in
  let s' := db (snd (toggleProductStatus env (Some admin) pid true w)) in
  (forall caller p, In p (fetchProducts caller s') -> p_id p <> pid)
  /\ (forall u, map bare_order (fetchOrders u s') = map bare_order (fetchOrders u s))
  /\ (forall u, is_admin s (Some u) = true -> fetchOrders u s' = fetchOrders u s)
  /\ (forall u pid', pid' <> pid ->
        embed_product (Some u) s' pid' = embed_product (Some u) s pid').
Proof.
  intros Hadmin Hnet s s'.
  destruct (deactivation_effect env admin pid w Hadmin Hnet) as [H1 [H2 [H3 [H4 _]]]].
  repeat split; assumption.
Qed.

Lemma deactivation_keeps_history_witness :
  let s := Sample.shop_history in
  let s' := db (snd (toggleProductStatus Sample.reliable (Some Sample.root) "p-nike" true
                       (start s))) in
  map bare_order (fetchOrders Sample.alice s') = map bare_order (fetchOrders Sample.alice s)
  /\ fetchOrders Sample.root s' = fetchOrders Sample.root s.
Proof.
  destruct (deactivation_keeps_history Sample.reliable Sample.root "p-nike"
              (start Sample.shop_history))
    as [_ [Hbare [Hadmin _]]]; [reflexivity | reflexivity |].
  split; [apply Hbare | apply Hadmin; reflexivity].
Defined.
